(** * StreamingCommunity.Util._jsonConfig: the ConfigManager, embedded and verified

    The Python module keeps three dictionaries (the main configuration, the
    remote "site" configuration and a flat lookup cache) and offers typed
    getters, a setter, a loader and a writer.  This file embeds the class
    method by method as functions in a small state-and-exception monad and
    proves properties of its getters, its setter, its loader and its writer.

    Conventions of the embedding:
    - a Python [str] is a Rocq [string]; each [ascii] stands for the code
      point of the same number, so the strings of the model are those whose
      code points are below 256;
    - a Python [int] is a [Z] (the interpreter's limit on the number of
      decimal digits converted at once is not modelled);
    - a Python [float] is a [spec_float] (sign, mantissa, binary exponent);
    - a JSON object is an association list in insertion order, as a Python
      [dict] keeps it; the cache, which is only ever looked up, is a [gmap];
    - the objects of the model are the ones [json.load] can produce, nested
      as deep as they like (the interpreter's recursion limit is not
      modelled). *)

From Stdlib Require Import ZArith List Ascii String SpecFloat.
From Stdlib Require Import DecimalString DecimalZ DecimalPos DecimalFacts.
From stdpp Require Import base option list strings gmap.

Set Warnings "-register-all".

Local Open Scope Z_scope.
Local Open Scope string_scope.

(** ** Python objects *)

Unset Elimination Schemes.
Inductive pyvalue : Type :=
| VNone
| VBool (b : bool)
| VInt (n : Z)
| VFloat (f : spec_float)
| VStr (s : string)
| VList (l : list pyvalue)
| VDict (d : list (string * pyvalue)).
Set Elimination Schemes.

(** The [data_type] argument of [read_key]: a Python type object.  Every
    type the getters pass is listed; any other type object is [ty_other]. *)
Inductive pytype : Type :=
| ty_str | ty_int | ty_float | ty_bool | ty_list | ty_dict | ty_NoneType
| ty_other (name : string).

(** Exceptions.  [exn_args] is the message when the source or the
    environment fixes it, and [None] for the exceptions the interpreter
    raises with a text of its own. *)
Inductive exn_type : Type :=
| ValueError | TypeError | AttributeError | OverflowError | KeyError
| OSError | RequestException | JSONDecodeError.

Record exn : Type := Exn { exn_ty : exn_type; exn_args : option string }.

Inductive result (A : Type) : Type :=
| Ok (a : A)
| Err (e : exn).
Arguments Ok {A} a.
Arguments Err {A} e.

Definition interp_error {A} (t : exn_type) : result A := Err (Exn t None).

(** ** Characters and strings as Python treats them *)

Definition code (c : ascii) : N := N_of_ascii c.

(** [str.isspace] on one character, restricted to code points below 256:
    TAB, LF, VT, FF, CR, the separators FS, GS, RS, US, the space, NEL and
    the no-break space. *)
Definition isspace (c : ascii) : bool :=
  let n := code c in
  ((9 <=? n) && (n <=? 13))%N || ((28 <=? n) && (n <=? 32))%N
  || (n =? 133)%N || (n =? 160)%N.

(** The blanks [int(str)] skips around a literal: the C locale's white
    space, and NEL and the no-break space, which the conversion first turns
    into a space. The separators FS..US are not among them. *)
Definition int_space (c : ascii) : bool :=
  let n := code c in
  ((9 <=? n) && (n <=? 13))%N || (n =? 32)%N || (n =? 133)%N || (n =? 160)%N.

Definition is_digit (c : ascii) : bool :=
  let n := code c in ((48 <=? n) && (n <=? 57))%N.

Definition digit_val (c : ascii) : Z := Z.of_N (code c) - 48.

Fixpoint str_all (p : ascii -> bool) (s : string) : bool :=
  match s with
  | EmptyString => true
  | String c s' => p c && str_all p s'
  end.

Fixpoint str_drop_while (p : ascii -> bool) (s : string) : string :=
  match s with
  | EmptyString => EmptyString
  | String c s' => if p c then str_drop_while p s' else s
  end.

(** [s.lstrip()], [s.rstrip()] and [s.strip()] *)
Definition lstrip (s : string) : string := str_drop_while isspace s.

Fixpoint rstrip (s : string) : string :=
  match s with
  | EmptyString => EmptyString
  | String c s' =>
      match rstrip s' with
      | EmptyString => if isspace c then EmptyString else String c EmptyString
      | r => String c r
      end
  end.

Definition strip (s : string) : string := rstrip (lstrip s).

(** [s.split(sep)] for a separator of one character: always at least one
    piece, empty pieces kept. *)
Fixpoint split (sep : ascii) (s : string) : list string :=
  match s with
  | EmptyString => [EmptyString]
  | String c s' =>
      if Ascii.eqb c sep then EmptyString :: split sep s'
      else match split sep s' with
           | [] => [String c EmptyString]
           | p :: ps => String c p :: ps
           end
  end.

Fixpoint str_drop (n : nat) (s : string) : string :=
  match n, s with
  | S n', String _ s' => str_drop n' s'
  | _, _ => s
  end.

Fixpoint is_prefix (p s : string) : bool :=
  match p, s with
  | EmptyString, _ => true
  | String a p', String b s' => Ascii.eqb a b && is_prefix p' s'
  | String _ _, EmptyString => false
  end.

(** [p in s] for two strings: [p] occurs in [s] as a substring. *)
Fixpoint is_substring (p s : string) : bool :=
  is_prefix p s ||
  match s with
  | EmptyString => false
  | String _ s' => is_substring p s'
  end.

(** ** Dictionaries in insertion order *)

Fixpoint dict_get {A} (d : list (string * A)) (k : string) : option A :=
  match d with
  | [] => None
  | (k', v) :: d' => if String.eqb k' k then Some v else dict_get d' k
  end.

(** [d[k] = v]: an existing key keeps its place, a new one goes last. *)
Fixpoint dict_set {A} (d : list (string * A)) (k : string) (v : A)
  : list (string * A) :=
  match d with
  | [] => [(k, v)]
  | (k', v') :: d' =>
      if String.eqb k' k then (k', v) :: d' else (k', v') :: dict_set d' k v
  end.

Definition dict_has {A} (d : list (string * A)) (k : string) : bool :=
  match dict_get d k with Some _ => true | None => false end.

(** ** The built-in operations the class applies to its values *)

(** [bool(value)] *)
Definition py_bool (value : pyvalue) : bool :=
  match value with
  | VNone => false
  | VBool b => b
  | VInt n => negb (n =? 0)%Z
  | VFloat (S754_zero _) => false
  | VFloat _ => true
  | VStr s => negb (String.eqb s EmptyString)
  | VList l => match l with [] => false | _ => true end
  | VDict d => match d with [] => false | _ => true end
  end.

(** The digits of an integer literal: a digit, then digits each of which
    may be preceded by one underscore.  Returns the value read and what
    follows; [None] on a doubled or trailing underscore. *)
Fixpoint scan_digits (acc : Z) (s : string) : option (Z * string) :=
  match s with
  | String c s' =>
      if is_digit c then scan_digits (acc * 10 + digit_val c) s'
      else if Ascii.eqb c "_" then
        match s' with
        | String d s'' =>
            if is_digit d then scan_digits (acc * 10 + digit_val d) s''
            else None
        | EmptyString => None
        end
      else Some (acc, s)
  | EmptyString => Some (acc, s)
  end.

(** [int(s)] for a string, base 10: blanks, a sign, the digits, blanks. *)
Definition split_sign (s : string) : bool * string :=
  match s with
  | String c r =>
      if Ascii.eqb c "+" then (false, r)
      else if Ascii.eqb c "-" then (true, r)
      else (false, s)
  | EmptyString => (false, s)
  end.

Definition int_of_str (s : string) : option Z :=
  let '(neg, s2) := split_sign (str_drop_while int_space s) in
  match s2 with
  | String c s3 =>
      if is_digit c then
        match scan_digits (digit_val c) s3 with
        | Some (n, rest) =>
            if str_all int_space rest then Some (if neg then - n else n)
            else None
        | None => None
        end
      else None
  | EmptyString => None
  end.

(** [int(f)] for a float: truncation toward zero. *)
Definition trunc_float (f : spec_float) : result Z :=
  match f with
  | S754_zero _ => Ok 0
  | S754_infinity _ => interp_error OverflowError
  | S754_nan => interp_error ValueError
  | S754_finite s m e =>
      let a := if (0 <=? e)%Z then Z.pos m * 2 ^ e else Z.pos m / 2 ^ (- e) in
      Ok (if s then - a else a)
  end.

(** [int(value)] *)
Definition py_int (value : pyvalue) : result Z :=
  match value with
  | VInt n => Ok n
  | VBool b => Ok (if b then 1 else 0)
  | VFloat f => trunc_float f
  | VStr s =>
      match int_of_str s with
      | Some n => Ok n
      | None => interp_error ValueError
      end
  | VNone | VList _ | VDict _ => interp_error TypeError
  end.

(** [k in container] for a string [k] *)
Definition py_contains (container : pyvalue) (k : string) : result bool :=
  match container with
  | VDict d => Ok (dict_has d k)
  | VList l =>
      Ok (existsb (fun x => match x with
                            | VStr s => String.eqb s k
                            | _ => false
                            end) l)
  | VStr s => Ok (is_substring k s)
  | VNone | VBool _ | VInt _ | VFloat _ => interp_error TypeError
  end.

(** [container[k]] for a string [k] *)
Definition py_getitem (container : pyvalue) (k : string) : result pyvalue :=
  match container with
  | VDict d =>
      match dict_get d k with
      | Some v => Ok v
      | None => interp_error KeyError
      end
  | _ => interp_error TypeError
  end.

(** [container[k] = v] for a string [k]: the container after the
    assignment. *)
Definition py_setitem (container : pyvalue) (k : string) (v : pyvalue)
  : result pyvalue :=
  match container with
  | VDict d => Ok (VDict (dict_set d k v))
  | _ => interp_error TypeError
  end.

(** ** The world outside the class *)

(** What [requests.get] hands back: the status, the raw body, and what
    [response.json()] makes of that body. *)
Record Response : Type := {
  status_code : Z;
  content : string;
  json : result pyvalue
}.

(** A formatted message: literal text and strings, numbers and exceptions
    put into it by an f-string. *)
Inductive piece : Type :=
| txt (s : string)
| num (n : Z)
| exc (e : exn).

Inductive event : Type :=
| logging_info (m : list piece)
| logging_error (m : list piece)
| console_print (m : list piece)
| builtin_print (m : list piece).

Record World : Type := {
  files : gmap string string;       (* the file system: path to contents *)
  writable : string -> bool;        (* may the path be opened for writing *)
  requests_get : string -> result Response;
  base_path : string;               (* the directory the class resolves *)
  out : list event                  (* log and terminal, oldest first *)
}.

(** ** The class and its monad *)

Record ConfigManager : Type := {
  file_path : string;
  config : pyvalue;
  configSite : pyvalue;
  cache : gmap string pyvalue
}.

Definition state : Type := ConfigManager * World.

(** A call returns, raises an exception, or ends the process
    ([sys.exit]).  The state is kept in every case: Python does not undo
    what was done before an exception. *)
Inductive outcome (A : Type) : Type :=
| Returns (a : A)
| Raises (e : exn)
| Exits (status : Z).
Arguments Returns {A} a.
Arguments Raises {A} e.
Arguments Exits {A} status.

Definition M (A : Type) : Type := state -> outcome A * state.

#[global] Instance M_ret : MRet M := fun A a st => (Returns a, st).

#[global] Instance M_bind : MBind M := fun A B f m st =>
  match m st with
  | (Returns a, st') => f a st'
  | (Raises e, st') => (Raises e, st')
  | (Exits n, st') => (Exits n, st')
  end.

Definition raise {A} (e : exn) : M A := fun st => (Raises e, st).

Definition sys_exit {A} (status : Z) : M A := fun st => (Exits status, st).

Definition lift {A} (r : result A) : M A :=
  match r with
  | Ok a => mret a
  | Err e => raise e
  end.

(** [try: body except Exception as e: handler(e)].  [SystemExit] is not an
    [Exception], so an exit passes through. *)
Definition try_except {A} (body : M A) (handler : exn -> M A) : M A :=
  fun st =>
    match body st with
    | (Raises e, st') => handler e st'
    | r => r
    end.

Definition get_self : M ConfigManager := fun st => (Returns (fst st), st).
Definition get_world : M World := fun st => (Returns (snd st), st).
Definition put_self (self : ConfigManager) : M unit :=
  fun st => (Returns tt, (self, snd st)).
Definition put_world (w : World) : M unit :=
  fun st => (Returns tt, (fst st, w)).

(** The state after one change: an event written, a file written, an
    attribute of the class assigned. *)
Definition add_out (ev : event) (w : World) : World :=
  {| files := files w; writable := writable w;
     requests_get := requests_get w; base_path := base_path w;
     out := (out w ++ [ev])%list |}.

Definition with_file (path data : string) (w : World) : World :=
  {| files := <[path := data]> (files w); writable := writable w;
     requests_get := requests_get w; base_path := base_path w;
     out := out w |}.

Definition with_config (v : pyvalue) (self : ConfigManager) : ConfigManager :=
  {| file_path := file_path self; config := v;
     configSite := configSite self; cache := cache self |}.

Definition with_configSite (v : pyvalue) (self : ConfigManager)
  : ConfigManager :=
  {| file_path := file_path self; config := config self;
     configSite := v; cache := cache self |}.

Definition with_cache (k : string) (v : pyvalue) (self : ConfigManager)
  : ConfigManager :=
  {| file_path := file_path self; config := config self;
     configSite := configSite self; cache := <[k := v]> (cache self) |}.

Definition emit (ev : event) : M unit :=
  w ← get_world; put_world (add_out ev w).

Definition set_config (v : pyvalue) : M unit :=
  self ← get_self; put_self (with_config v self).

Definition set_configSite (v : pyvalue) : M unit :=
  self ← get_self; put_self (with_configSite v self).

Definition set_cache (k : string) (v : pyvalue) : M unit :=
  self ← get_self; put_self (with_cache k v self).

(** [self.configSite if site else self.config] *)
Definition store (site : bool) (self : ConfigManager) : pyvalue :=
  if site then configSite self else config self.

Definition set_store (site : bool) (v : pyvalue) : M unit :=
  if site then set_configSite v else set_config v.

(** [open(path, 'w')] or [open(path, 'wb')], one write, close. *)
Definition write_file (path data : string) : M unit :=
  w ← get_world;
  if writable w path then put_world (with_file path data w)
  else raise (Exn OSError None).

Definition http_get (url : string) : M Response :=
  w ← get_world; lift (requests_get w url).

(** ** ConfigManager.read_key and the conversions *)

Definition origin (site : bool) : string := if site then "site" else "config".

(** [f"{'site' if from_site else 'config'}.{section}.{key}"] *)
Definition cache_key (site : bool) (section key : string) : string :=
  origin site +:+ "." +:+ section +:+ "." +:+ key.

Definition key_not_found (section key : string) (from_site : bool) : exn :=
  Exn ValueError
      (Some ("Key '" +:+ key +:+ "' not found in section '" +:+ section
             +:+ "' of " +:+ (if from_site then "site" else "main")
             +:+ " config")).

Definition _convert_to_data_type (value : pyvalue) (data_type : pytype)
  : result pyvalue :=
  match data_type with
  | ty_int =>
      match py_int value with
      | Ok n => Ok (VInt n)
      | Err e => Err e
      end
  | ty_bool => Ok (VBool (py_bool value))
  | ty_list =>
      match value with
      | VList _ => Ok value
      | VStr s => Ok (VList (map (fun item => VStr (strip item)) (split "," s)))
      | _ => interp_error AttributeError
      end
  | ty_NoneType => Ok VNone
  | _ => Ok value
  end.

Definition read_key (section key : string) (data_type : pytype)
    (from_site : bool) : M pyvalue :=
  let cache_key := cache_key from_site section key in
  emit (logging_info [txt "Read key: "; txt cache_key]);;
  self ← get_self;
  match cache self !! cache_key with
  | Some cached => mret cached
  | None =>
      let config_source := store from_site self in
      in_section ← lift (py_contains config_source section);
      found ← (if in_section : bool
               then sec ← lift (py_getitem config_source section);
                    lift (py_contains sec key)
               else mret false);
      value ← (if found : bool
               then sec ← lift (py_getitem config_source section);
                    lift (py_getitem sec key)
               else raise (key_not_found section key from_site));
      value ← lift (_convert_to_data_type value data_type);
      set_cache cache_key value;;
      mret value
  end.

(** Main config getters *)
Definition get (section key : string) : M pyvalue :=
  read_key section key ty_str false.
Definition get_int (section key : string) : M pyvalue :=
  read_key section key ty_int false.
Definition get_float (section key : string) : M pyvalue :=
  read_key section key ty_float false.
Definition get_bool (section key : string) : M pyvalue :=
  read_key section key ty_bool false.
Definition get_list (section key : string) : M pyvalue :=
  read_key section key ty_list false.
Definition get_dict (section key : string) : M pyvalue :=
  read_key section key ty_dict false.

(** Site config getters *)
Definition get_site (section key : string) : M pyvalue :=
  read_key section key ty_str true.
Definition get_site_int (section key : string) : M pyvalue :=
  read_key section key ty_int true.
Definition get_site_float (section key : string) : M pyvalue :=
  read_key section key ty_float true.
Definition get_site_bool (section key : string) : M pyvalue :=
  read_key section key ty_bool true.
Definition get_site_list (section key : string) : M pyvalue :=
  read_key section key ty_list true.
Definition get_site_dict (section key : string) : M pyvalue :=
  read_key section key ty_dict true.

(** ** ConfigManager.set_key *)

(** [target[section][key] = value]: the dictionary held under [section] is
    changed in place, so the store holds the changed dictionary. *)
Definition py_setitem2 (target : pyvalue) (section key : string)
    (value : pyvalue) : result pyvalue :=
  match py_getitem target section with
  | Ok sec =>
      match py_setitem sec key value with
      | Ok sec' => py_setitem target section sec'
      | Err e => Err e
      end
  | Err e => Err e
  end.

Definition set_key (section key : string) (value : pyvalue) (to_site : bool)
  : M unit :=
  try_except
    (self ← get_self;
     let config_target := store to_site self in
     in_target ← lift (py_contains config_target section);
     config_target ← (if negb in_target
                      then t ← lift (py_setitem config_target section (VDict []));
                           set_store to_site t;; mret t
                      else mret config_target);
     t ← lift (py_setitem2 config_target section key value);
     set_store to_site t;;
     set_cache (cache_key to_site section key) value)
    (fun e =>
       emit (builtin_print
               [txt "Error setting key '"; txt key; txt "' in section '";
                txt section; txt "' of ";
                txt (if to_site then "site" else "main"); txt " config: ";
                exc e])).

(** ** ConfigManager.download_requirements and update_site_config *)

Definition download_requirements (url filename : string) : M unit :=
  try_except
    (emit (logging_info [txt "🌍 Downloading "; txt filename; txt " from ";
                         txt url; txt "..."]);;
     response ← http_get url;
     if (status_code response =? 200)%Z then
       write_file filename (content response);;
       emit (console_print [txt "[bold green]✅ Successfully downloaded ";
                            txt filename; txt ".[/bold green]"])
     else
       emit (logging_error [txt "❌ Failed to download "; txt filename;
                            txt ". HTTP Status code: ";
                            num (status_code response)]);;
       sys_exit 0)
    (fun e =>
       emit (logging_error [txt "❌ Failed to download "; txt filename;
                            txt ": "; exc e]);;
       sys_exit 0).

Definition api_url : string := "https://api.npoint.io/e67633acc3816cc70132".

Definition update_site_config : M unit :=
  try_except
    (emit (console_print
             [txt "[bold cyan]🌍 Fetching SITE data from API...[/bold cyan]"]);;
     response ← http_get api_url;
     if (status_code response =? 200)%Z then
       site ← lift (json response);
       set_configSite site;;
       emit (console_print
               [txt "[bold green]✅ SITE data successfully fetched.[/bold green]"])
     else
       emit (console_print
               [txt "[bold red]❌ Failed to fetch SITE data. HTTP Status code: ";
                num (status_code response); txt "[/bold red]"]))
    (fun e =>
       emit (console_print [txt "[bold red]❌ Error fetching SITE data: ";
                            exc e; txt "[/bold red]"])).

(** ** The json module as the class uses it

    [json.dump(obj, f, indent=4)] and [json.load(f)], with the defaults of
    the library ([ensure_ascii], [allow_nan], strict strings).  The text of
    a finite float is Python's [float.__repr__], read back by [float]; the
    two are taken as given. *)

Definition dquote : ascii := "034"%char.
Definition backslash : ascii := "092"%char.
Definition LF : ascii := "010"%char.

Section Json.

Variable float_repr : spec_float -> string.
Variable float_of_str : string -> spec_float.

(** *** Encoding *)

Definition hex_digit (n : N) : ascii :=
  if (n <? 10)%N then ascii_of_N (48 + n) else ascii_of_N (87 + n).

(** One character of a string between the quotes: [\\] and the quote are
    escaped, then anything outside [' '..'~'], by its short escape if it has
    one and by [\uXXXX] otherwise. *)
Definition escape_char (c : ascii) : string :=
  let n := code c in
  if Ascii.eqb c backslash then String backslash (String backslash "")
  else if Ascii.eqb c dquote then String backslash (String dquote "")
  else if (n =? 8)%N then String backslash "b"
  else if (n =? 12)%N then String backslash "f"
  else if (n =? 10)%N then String backslash "n"
  else if (n =? 13)%N then String backslash "r"
  else if (n =? 9)%N then String backslash "t"
  else if ((32 <=? n) && (n <=? 126))%N then String c ""
  else String backslash
         ("u00" +:+ String (hex_digit (n / 16)) (String (hex_digit (n mod 16)) "")).

Fixpoint escape (s : string) : string :=
  match s with
  | EmptyString => EmptyString
  | String c s' => escape_char c +:+ escape s'
  end.

Definition encode_basestring_ascii (s : string) : string :=
  String dquote (escape s +:+ String dquote "").

(** [int.__repr__] *)
Definition intstr (n : Z) : string := NilZero.string_of_int (Z.to_int n).

Definition floatstr (f : spec_float) : string :=
  match f with
  | S754_nan => "NaN"
  | S754_infinity false => "Infinity"
  | S754_infinity true => "-Infinity"
  | _ => float_repr f
  end.

Fixpoint spaces (n : nat) : string :=
  match n with
  | O => EmptyString
  | S n' => String " " (spaces n')
  end.

(** ['\n' + _indent * level] with an indent of four spaces *)
Definition newline_indent (level : nat) : string :=
  String LF (spaces (4 * level)).

(** [_iterencode]: a container opens a line per item, indented one level
    deeper, the items joined by [item_separator + newline_indent]; an empty
    container is written closed. *)
Fixpoint iterencode (o : pyvalue) (level : nat) {struct o} : string :=
  match o with
  | VStr s => encode_basestring_ascii s
  | VNone => "null"
  | VBool true => "true"
  | VBool false => "false"
  | VInt n => intstr n
  | VFloat f => floatstr f
  | VList l =>
      match l with
      | [] => "[]"
      | _ :: _ =>
          "[" +:+ newline_indent (S level)
          +:+ String.concat ("," +:+ newline_indent (S level))
                (map (fun value => iterencode value (S level)) l)
          +:+ newline_indent level +:+ "]"
      end
  | VDict d =>
      match d with
      | [] => "{}"
      | _ :: _ =>
          "{" +:+ newline_indent (S level)
          +:+ String.concat ("," +:+ newline_indent (S level))
                (map (fun item =>
                        match item with
                        | (key, value) =>
                            encode_basestring_ascii key +:+ ": "
                            +:+ iterencode value (S level)
                        end) d)
          +:+ newline_indent level +:+ "}"
      end
  end.

(** The text [json.dump(obj, f, indent=4)] writes. *)
Definition json_dumps (obj : pyvalue) : string := iterencode obj 0.

(** *** Decoding *)

Definition is_ws (c : ascii) : bool :=
  let n := code c in (n =? 32)%N || (n =? 9)%N || (n =? 10)%N || (n =? 13)%N.

Definition skip_ws (s : string) : string := str_drop_while is_ws s.

Fixpoint span (p : ascii -> bool) (s : string) : string * string :=
  match s with
  | String c s' =>
      if p c then let '(a, r) := span p s' in (String c a, r)
      else (EmptyString, s)
  | EmptyString => (EmptyString, EmptyString)
  end.

Definition hex_val (c : ascii) : option N :=
  let n := code c in
  if ((48 <=? n) && (n <=? 57))%N then Some (n - 48)%N
  else if ((97 <=? n) && (n <=? 102))%N then Some (n - 87)%N
  else if ((65 <=? n) && (n <=? 70))%N then Some (n - 55)%N
  else None.

(** The four hexadecimal digits of a [\u] escape.  An escape above 00ff
    names a character the strings of the model do not have, and is
    refused. *)
Definition decode_uXXXX (h1 h2 h3 h4 : ascii) : option ascii :=
  match hex_val h1, hex_val h2, hex_val h3, hex_val h4 with
  | Some a, Some b, Some c, Some d =>
      if ((a =? 0) && (b =? 0))%N then Some (ascii_of_N (c * 16 + d)) else None
  | _, _, _, _ => None
  end.

Definition unescape (esc : ascii) : option ascii :=
  if Ascii.eqb esc dquote then Some dquote
  else if Ascii.eqb esc backslash then Some backslash
  else if Ascii.eqb esc "/" then Some "/"%char
  else if Ascii.eqb esc "b" then Some "008"%char
  else if Ascii.eqb esc "f" then Some "012"%char
  else if Ascii.eqb esc "n" then Some "010"%char
  else if Ascii.eqb esc "r" then Some "013"%char
  else if Ascii.eqb esc "t" then Some "009"%char
  else None.

(** [scanstring], from just after the opening quote: the string and what
    follows the closing quote. *)
Fixpoint scanstring (s : string) : option (string * string) :=
  match s with
  | EmptyString => None
  | String c s' =>
      if Ascii.eqb c dquote then Some (EmptyString, s')
      else if Ascii.eqb c backslash then
        match s' with
        | EmptyString => None
        | String esc s'' =>
            if Ascii.eqb esc "u" then
              match s'' with
              | String h1 (String h2 (String h3 (String h4 r))) =>
                  match decode_uXXXX h1 h2 h3 h4 with
                  | Some ch =>
                      match scanstring r with
                      | Some (str, r') => Some (String ch str, r')
                      | None => None
                      end
                  | None => None
                  end
              | _ => None
              end
            else
              match unescape esc with
              | Some ch =>
                  match scanstring s'' with
                  | Some (str, r') => Some (String ch str, r')
                  | None => None
                  end
              | None => None
              end
        end
      else if (code c <? 32)%N then None
      else
        match scanstring s' with
        | Some (str, r') => Some (String c str, r')
        | None => None
        end
  end.

(** [NUMBER_RE]: an optional minus and the integer part (a single zero, or
    a non-zero digit and more digits); optionally a point and digits;
    optionally [e] or [E], a sign and digits.  The three groups and what
    follows the match. *)
Definition match_integer (s : string) : option (string * string) :=
  let '(sign, s1) :=
    match s with
    | String c r => if Ascii.eqb c "-" then ("-", r) else (EmptyString, s)
    | EmptyString => (EmptyString, s)
    end in
  match s1 with
  | String c s2 =>
      if Ascii.eqb c "0" then Some (sign +:+ "0", s2)
      else if is_digit c then
        let '(ds, r) := span is_digit s2 in Some (sign +:+ String c ds, r)
      else None
  | EmptyString => None
  end.

Definition match_frac (s : string) : string * string :=
  match s with
  | String c (String d r) =>
      if Ascii.eqb c "." && is_digit d then
        let '(ds, r') := span is_digit r in (String c (String d ds), r')
      else (EmptyString, s)
  | _ => (EmptyString, s)
  end.

Definition match_exp (s : string) : string * string :=
  match s with
  | String e r =>
      if Ascii.eqb e "e" || Ascii.eqb e "E" then
        let '(sg, r1) :=
          match r with
          | String c r' =>
              if Ascii.eqb c "-" || Ascii.eqb c "+"
              then (String c EmptyString, r') else (EmptyString, r)
          | EmptyString => (EmptyString, r)
          end in
        match r1 with
        | String d r2 =>
            if is_digit d then
              let '(ds, r3) := span is_digit r2 in
              (String e (sg +:+ String d ds), r3)
            else (EmptyString, s)
        | EmptyString => (EmptyString, s)
        end
      else (EmptyString, s)
  | EmptyString => (EmptyString, s)
  end.

Definition match_number (s : string)
  : option (string * string * string * string) :=
  match match_integer s with
  | Some (integer, r) =>
      let '(frac, r1) := match_frac r in
      let '(exp, r2) := match_exp r1 in
      Some (integer, frac, exp, r2)
  | None => None
  end.

Definition nonempty (s : string) : bool :=
  match s with EmptyString => false | String _ _ => true end.

(** The scalars of [scan_once], tried when the value opens with none of
    the quote, [{] and [[]. *)
Definition scan_scalar (s : string) : option (pyvalue * string) :=
  if is_prefix "null" s then Some (VNone, str_drop 4 s)
  else if is_prefix "true" s then Some (VBool true, str_drop 4 s)
  else if is_prefix "false" s then Some (VBool false, str_drop 5 s)
  else
    match match_number s with
    | Some (integer, frac, exp, r) =>
        if nonempty frac || nonempty exp
        then Some (VFloat (float_of_str (integer +:+ frac +:+ exp)), r)
        else match int_of_str integer with
             | Some n => Some (VInt n, r)
             | None => None
             end
    | None =>
        if is_prefix "NaN" s then Some (VFloat S754_nan, str_drop 3 s)
        else if is_prefix "Infinity" s
        then Some (VFloat (S754_infinity false), str_drop 8 s)
        else if is_prefix "-Infinity" s
        then Some (VFloat (S754_infinity true), str_drop 9 s)
        else None
    end.

(** The loop of [JSONArray], from the first value on: value, then [,] and
    the next value or the closing bracket. *)
Fixpoint array_loop (scan : string -> option (pyvalue * string)) (fuel : nat)
    (values : list pyvalue) (s : string) : option (list pyvalue * string) :=
  match fuel with
  | O => None
  | S fuel' =>
      match scan s with
      | Some (value, r) =>
          match skip_ws r with
          | String c r' =>
              if Ascii.eqb c "]" then Some ((values ++ [value])%list, r')
              else if Ascii.eqb c ","
              then array_loop scan fuel' (values ++ [value])%list (skip_ws r')
              else None
          | EmptyString => None
          end
      | None => None
      end
  end.

(** The loop of [JSONObject], from just after the quote that opens a key. *)
Fixpoint object_loop (scan : string -> option (pyvalue * string)) (fuel : nat)
    (pairs : list (string * pyvalue)) (s : string)
  : option (list (string * pyvalue) * string) :=
  match fuel with
  | O => None
  | S fuel' =>
      match scanstring s with
      | Some (key, r) =>
          match skip_ws r with
          | String c r1 =>
              if Ascii.eqb c ":" then
                match scan (skip_ws r1) with
                | Some (value, r2) =>
                    match skip_ws r2 with
                    | String c' r3 =>
                        if Ascii.eqb c' "}"
                        then Some ((pairs ++ [(key, value)])%list, r3)
                        else if Ascii.eqb c' "," then
                          match skip_ws r3 with
                          | String q r4 =>
                              if Ascii.eqb q dquote
                              then object_loop scan fuel'
                                     (pairs ++ [(key, value)])%list r4
                              else None
                          | EmptyString => None
                          end
                        else None
                    | EmptyString => None
                    end
                | None => None
                end
              else None
          | EmptyString => None
          end
      | None => None
      end
  end.

(** [dict(pairs)]: a later pair replaces the value of an earlier one with
    the same key. *)
Definition dict_of_pairs (pairs : list (string * pyvalue))
  : list (string * pyvalue) :=
  fold_left (fun d kv => dict_set d (fst kv) (snd kv)) pairs [].

(** [scan_once].  [fuel] bounds the nesting and the number of items of one
    container; a text never needs more than its length. *)
Fixpoint scan_once (fuel : nat) (s : string) : option (pyvalue * string) :=
  match fuel with
  | O => None
  | S fuel' =>
      match s with
      | EmptyString => None
      | String c s' =>
          if Ascii.eqb c dquote then
            match scanstring s' with
            | Some (str, r) => Some (VStr str, r)
            | None => None
            end
          else if Ascii.eqb c "{" then
            match skip_ws s' with
            | String c' r =>
                if Ascii.eqb c' "}" then Some (VDict [], r)
                else if Ascii.eqb c' dquote then
                  match object_loop (scan_once fuel') fuel' [] r with
                  | Some (pairs, r') => Some (VDict (dict_of_pairs pairs), r')
                  | None => None
                  end
                else None
            | EmptyString => None
            end
          else if Ascii.eqb c "[" then
            match skip_ws s' with
            | String c' r =>
                if Ascii.eqb c' "]" then Some (VList [], r)
                else
                  match array_loop (scan_once fuel') fuel' [] (String c' r) with
                  | Some (values, r') => Some (VList values, r')
                  | None => None
                  end
            | EmptyString => None
            end
          else scan_scalar s
      end
  end.

(** [json.loads(s)]: leading blanks, one value, trailing blanks, the end. *)
Definition json_loads (s : string) : result pyvalue :=
  match scan_once (S (String.length s)) (skip_ws s) with
  | Some (obj, r) =>
      match skip_ws r with
      | EmptyString => Ok obj
      | String _ _ => interp_error JSONDecodeError
      end
  | None => interp_error JSONDecodeError
  end.

(** ** ConfigManager.__init__, read_config and write_config *)

(** [os.path.join(a, b)] with [/] as the separator *)
Definition path_join (a b : string) : string :=
  if is_prefix "/" b then b
  else if negb (nonempty a) || String.eqb (str_drop (String.length a - 1) a) "/"
  then a +:+ b
  else a +:+ "/" +:+ b.

Definition __init__ (file_name : string) (w : World) : state :=
  let file_path := path_join (base_path w) file_name in
  ({| file_path := file_path; config := VDict []; configSite := VDict [];
      cache := ∅ |},
   add_out (console_print
              [txt "[bold cyan]📂 Configuration file path:[/bold cyan] [green]";
               txt file_path; txt "[/green]"]) w).

(** [os.path.exists(path)] *)
Definition path_exists (path : string) : M bool :=
  w ← get_world;
  mret (match files w !! path with Some _ => true | None => false end).

(** [with open(path, 'r') as f: json.load(f)] *)
Definition load_file (path : string) : M pyvalue :=
  w ← get_world;
  match files w !! path with
  | Some text => lift (json_loads text)
  | None => raise (Exn OSError None)
  end.

Definition default_config_url : string :=
  "https://raw.githubusercontent.com/Arrowar/StreamingCommunity/refs/heads/main/config.json".

Definition read_config : M unit :=
  try_except
    (self ← get_self;
     emit (logging_info [txt "📖 Reading file: "; txt (file_path self)]);;
     present ← path_exists (file_path self);
     (if present : bool then
        loaded ← load_file (file_path self);
        set_config loaded;;
        emit (console_print
                [txt "[bold green]✅ Configuration file loaded successfully.[/bold green]"])
      else
        emit (console_print
                [txt "[bold yellow]⚠️ Configuration file not found. Downloading...[/bold yellow]"]);;
        download_requirements default_config_url (file_path self);;
        loaded ← load_file (file_path self);
        set_config loaded;;
        emit (console_print
                [txt "[bold green]✅ Configuration file downloaded and saved.[/bold green]"]));;
     update_site_config;;
     emit (console_print
             [txt "[bold cyan]🔧 Configuration file processing complete.[/bold cyan]"]))
    (fun e =>
       emit (logging_error [txt "❌ Error reading configuration file: "; exc e])).

Definition write_config : M unit :=
  try_except
    (self ← get_self;
     write_file (file_path self) (json_dumps (config self)))
    (fun e =>
       emit (builtin_print [txt "Error writing configuration file: "; exc e])).

(** The two statements that end the module: the instance every importer
    shares, built and loaded at import. *)
Definition config_manager (w : World) : outcome unit * state :=
  read_config (__init__ "config.json" w).

End Json.

(** * The vocabulary of the properties

    What the theorems speak of: the data model of the stores, the events
    written, the grammar of the strings the conversions accept, the values
    the JSON text is exact for, and the example states the theorems are
    applied to.  The text of floats ([float.__repr__] and [float]) is a
    parameter of everything that follows. *)

Section Properties.

Variable float_repr : spec_float -> string.
Variable float_of_str : string -> spec_float.

Set Default Proof Using "Type".

#[local] Abbreviation scalar := (scan_scalar float_of_str).
#[local] Abbreviation scan := (scan_once float_of_str).
#[local] Abbreviation enc := (iterencode float_repr).

(** ** The stores of the data model *)

(** The value a store holds at [store[section][key]] when the store is a
    mapping of sections to mappings, as the data model has it. *)
Definition store_lookup (st : pyvalue) (section key : string)
  : option pyvalue :=
  match st with
  | VDict d =>
      match dict_get d section with
      | Some (VDict m) => dict_get m key
      | _ => None
      end
  | _ => None
  end.

(** The section is missing from the store, or is a mapping without the key. *)
Definition key_absent (st : pyvalue) (section key : string) : Prop :=
  exists d, st = VDict d /\
    (dict_get d section = None \/
     exists m, dict_get d section = Some (VDict m) /\ dict_get m key = None).

(** The store is a mapping in which [section] is missing or a mapping:
    [section_dict] is then the mapping [section] has before [set_key]. *)
Definition section_ready (st : pyvalue) (section : string) : Prop :=
  exists d, st = VDict d /\
    (dict_get d section = None \/ exists m, dict_get d section = Some (VDict m)).

(** The mapping [section] has in the store, empty when it has none. *)
Definition section_dict (st : pyvalue) (section : string)
  : list (string * pyvalue) :=
  match st with
  | VDict d =>
      match dict_get d section with
      | Some (VDict m) => m
      | _ => []
      end
  | _ => []
  end.

(** The store after [store[section][key] = value], the section created
    when missing. *)
Definition store_assign (st : pyvalue) (section key : string)
    (value : pyvalue) : pyvalue :=
  match st with
  | VDict d =>
      VDict (dict_set d section
               (VDict (dict_set (section_dict st section) key value)))
  | _ => st
  end.

(** The class after a successful [set_key]. *)
Definition after_set_key (section key : string) (value : pyvalue)
    (to_site : bool) (self : ConfigManager) : ConfigManager :=
  with_cache (cache_key to_site section key) value
    (if to_site
     then with_configSite (store_assign (configSite self) section key value) self
     else with_config (store_assign (config self) section key value) self).

(** The stores of the data model: a mapping whose values are mappings.
    The empty store is one, [set_key] keeps a store one, and in such a
    store every section is ready for [set_key]. *)
Definition well_formed_store (st : pyvalue) : Prop :=
  exists d, st = VDict d /\ Forall (fun item => exists m, snd item = VDict m) d.

(** ** The conversions *)

(** Truthiness in the words of the specification: a non-empty string, a
    non-zero number, a non-empty container, the boolean true. *)
Definition truthy (value : pyvalue) : Prop :=
  match value with
  | VNone => False
  | VBool b => b = true
  | VInt n => n <> 0%Z
  | VFloat f => forall sign, f <> S754_zero sign
  | VStr s => s <> EmptyString
  | VList l => l <> []
  | VDict d => d <> []
  end.

(** The data types [_convert_to_data_type] hands back untouched. *)
Definition passes_through (data_type : pytype) : Prop :=
  match data_type with
  | ty_int | ty_bool | ty_list | ty_NoneType => False
  | ty_str | ty_float | ty_dict | ty_other _ => True
  end.

(** ** The events written

    The lines the methods log or print, named for use in the statements. *)

(** The line [read_key] logs before anything else. *)
Definition read_key_log (site : bool) (section key : string) : event :=
  logging_info [txt "Read key: "; txt (cache_key site section key)].

Definition fetching_site : event :=
  console_print
    [txt "[bold cyan]🌍 Fetching SITE data from API...[/bold cyan]"].

Definition site_fetched : event :=
  console_print
    [txt "[bold green]✅ SITE data successfully fetched.[/bold green]"].

Definition site_status_failure (status : Z) : event :=
  console_print
    [txt "[bold red]❌ Failed to fetch SITE data. HTTP Status code: ";
     num status; txt "[/bold red]"].

Definition site_error (e : exn) : event :=
  console_print
    [txt "[bold red]❌ Error fetching SITE data: "; exc e; txt "[/bold red]"].

Definition downloading (url filename : string) : event :=
  logging_info [txt "🌍 Downloading "; txt filename; txt " from "; txt url;
                txt "..."].

Definition download_status_failure (filename : string) (status : Z) : event :=
  logging_error [txt "❌ Failed to download "; txt filename;
                 txt ". HTTP Status code: "; num status].

Definition download_error (filename : string) (e : exn) : event :=
  logging_error [txt "❌ Failed to download "; txt filename; txt ": "; exc e].

Definition downloaded (filename : string) : event :=
  console_print [txt "[bold green]✅ Successfully downloaded ";
                 txt filename; txt ".[/bold green]"].

(** ** Splitting and trimming *)

(** The string does not hold the character. *)
Definition lacks (c : ascii) (s : string) : bool :=
  str_all (fun x => negb (Ascii.eqb x c)) s.

Definition first_char (s : string) : option ascii :=
  match s with
  | EmptyString => None
  | String c _ => Some c
  end.

Fixpoint last_char (s : string) : option ascii :=
  match s with
  | EmptyString => None
  | String c EmptyString => Some c
  | String _ s' => last_char s'
  end.

(** [item] is [piece] without the white space around it. *)
Definition is_trim (piece item : string) : Prop :=
  exists l r,
    piece = l +:+ item +:+ r
    /\ str_all isspace l = true /\ str_all isspace r = true
    /\ (forall c, first_char item = Some c -> isspace c = false)
    /\ (forall c, last_char item = Some c -> isspace c = false).

(** ** Integer literals *)

(** The digits of an integer literal, [b], read as the plain digits [ds]:
    a digit, then digits each of which one underscore may precede. *)
Inductive grouped_digits : string -> string -> Prop :=
| gd_last c :
    is_digit c = true ->
    grouped_digits (String c EmptyString) (String c EmptyString)
| gd_next c b ds :
    is_digit c = true -> grouped_digits b ds ->
    grouped_digits (String c b) (String c ds)
| gd_under c b ds :
    is_digit c = true -> grouped_digits b ds ->
    grouped_digits (String c (String "_" b)) (String c ds).

(** The number a string of digits writes in base ten. *)
Fixpoint decimal_value (acc : Z) (ds : string) : Z :=
  match ds with
  | EmptyString => acc
  | String c ds' => decimal_value (acc * 10 + digit_val c) ds'
  end.

(** The sign written before the digits, as a factor. *)
Inductive sign_of : string -> Z -> Prop :=
| sign_none : sign_of EmptyString 1
| sign_plus : sign_of "+" 1
| sign_minus : sign_of "-" (-1).

(** [int_literal s n]: [s] is an integer literal of base ten, as [int]
    accepts it, and [n] is the integer it writes: blanks, an optional sign,
    grouped digits, blanks. *)
Inductive int_literal : string -> Z -> Prop :=
| int_literal_intro l sgn k b ds r :
    str_all int_space l = true -> str_all int_space r = true ->
    sign_of sgn k -> grouped_digits b ds ->
    int_literal (l +:+ sgn +:+ b +:+ r) (k * decimal_value 0 ds).

(** A value [int] refuses: null, a container, or a string that is no
    integer literal. *)
Definition non_numeric (value : pyvalue) : Prop :=
  match value with
  | VNone | VList _ | VDict _ => True
  | VStr s => forall n, ~ int_literal s n
  | VBool _ | VInt _ | VFloat _ => False
  end.

(** The first character of the string satisfies [p]. *)
Definition starts_with (p : ascii -> bool) (s : string) : bool :=
  match s with
  | EmptyString => false
  | String c _ => p c
  end.

(** What follows the digits does not continue them. *)
Definition ends_digits (r : string) : Prop :=
  starts_with is_digit r = false
  /\ starts_with (fun c => Ascii.eqb c "_") r = false.

(** ** JSON text *)

(** What follows a value in the text written: nothing, the comma before the
    next item, or the line feed before the closing bracket. *)
Definition delim (rest : string) : bool :=
  match rest with
  | EmptyString => true
  | String c _ => Ascii.eqb c "," || Ascii.eqb c LF
  end.

(** A JSON number with a fraction or an exponent, and nothing after it. *)
Definition is_float_literal (t : string) : bool :=
  match match_number t with
  | Some (_, frac, exp, EmptyString) => nonempty frac || nonempty exp
  | _ => false
  end.

(** A character a value may open with, where a value is expected. *)
Definition value_start (c : ascii) : bool :=
  negb (is_ws c) && negb (Ascii.eqb c "]").

(** The text of a finite float is a JSON number that [float] reads back as
    the float. *)
Definition float_text_ok (f : spec_float) : Prop :=
  match f with
  | S754_nan | S754_infinity _ => True
  | _ => is_float_literal (float_repr f) = true
         /\ float_of_str (float_repr f) = f
  end.

(** The values [json.dump] writes so that [json.load] reads them back: no
    dictionary holds a key twice (none can, in Python), and the text of
    every float is exact. *)
Inductive json_exact : pyvalue -> Prop :=
| exact_None : json_exact VNone
| exact_bool b : json_exact (VBool b)
| exact_int n : json_exact (VInt n)
| exact_float f : float_text_ok f -> json_exact (VFloat f)
| exact_str s : json_exact (VStr s)
| exact_list l : Forall json_exact l -> json_exact (VList l)
| exact_dict d :
    NoDup (map fst d) -> Forall (fun item => json_exact (snd item)) d ->
    json_exact (VDict d).

(** Induction on values, through the lists and dictionaries they hold. *)
Definition pyvalue_forall_ind (P : pyvalue -> Prop)
    (HNone : P VNone) (HBool : forall b, P (VBool b))
    (HInt : forall n, P (VInt n)) (HFloat : forall f, P (VFloat f))
    (HStr : forall s, P (VStr s))
    (HList : forall l, Forall P l -> P (VList l))
    (HDict : forall d, Forall (fun item => P (snd item)) d -> P (VDict d))
  : forall v, P v :=
  fix go (v : pyvalue) : P v :=
    match v with
    | VNone => HNone
    | VBool b => HBool b
    | VInt n => HInt n
    | VFloat f => HFloat f
    | VStr s => HStr s
    | VList l =>
        HList l
          ((fix all (l : list pyvalue) : Forall P l :=
              match l with
              | [] => @List.Forall_nil _ P
              | x :: l' => @List.Forall_cons _ P x l' (go x) (all l')
              end) l)
    | VDict d =>
        HDict d
          ((fix all (d : list (string * pyvalue))
              : Forall (fun item => P (snd item)) d :=
              match d with
              | [] => @List.Forall_nil _ _
              | (k, x) :: d' =>
                  @List.Forall_cons _ (fun item => P (snd item)) (k, x) d'
                    (go x) (all d')
              end) d)
    end.

(** [item_separator + newline_indent] inside a container at [level]. *)
Definition item_sep (level : nat) : string :=
  "," +:+ newline_indent (S level).

(** An item reads back, whatever delimiter follows it. *)
Definition reads_back (sc : string -> option (pyvalue * string))
    (level : nat) (x : pyvalue) : Prop :=
  json_exact x
  /\ forall rest, delim rest = true -> sc (enc x level +:+ rest) = Some (x, rest).

(** The text of one item of a dictionary. *)
Definition enc_item (level : nat) (item : string * pyvalue) : string :=
  match item with
  | (key, value) =>
      encode_basestring_ascii key +:+ ": " +:+ enc value (S level)
  end.

(** The fuel a value needs: one unit for each value in it. *)
Fixpoint size (v : pyvalue) : nat :=
  match v with
  | VList l => S (list_sum (map size l))
  | VDict d =>
      S (list_sum (map (fun item => match item with (_, x) => size x end) d))
  | _ => 1
  end.

(** A scanner that uses up some of what it reads. *)
Definition consuming (sc : string -> option (pyvalue * string)) : Prop :=
  forall s v r,
    sc s = Some (v, r) -> (String.length r < String.length s)%nat.

(** ** Example states *)

Definition demo_world : World :=
  {| files := ∅;
     writable := fun _ => true;
     requests_get := fun _ => Err (Exn RequestException (Some "unreachable"));
     base_path := "/srv/app";
     out := [] |}.

Definition one_and_a_half : spec_float := S754_finite false 3 (-1).

Definition demo_config : pyvalue :=
  VDict [("General",
          VDict [("debug", VStr "false"); ("langs", VStr "a, b,c");
                 ("retries", VStr " 42 "); ("ratio", VFloat one_and_a_half);
                 ("mirrors", VList [VStr "eu"; VInt 2; VNone; VBool true]);
                 ("proxy", VDict [])]);
         ("Empty", VDict [])].

Definition demo_self : ConfigManager :=
  {| file_path := "/srv/app/config.json";
     config := demo_config;
     configSite := VDict [];
     cache := ∅ |}.

(** A site store, and a world in which the file is missing and both
    requests are answered with status 200: the default configuration by
    the text of [body], the site by [demo_site]. *)
Definition demo_site : pyvalue :=
  VDict [("site", VDict [("domain", VStr "example.org")])].

Definition demo_online (body : string) : World :=
  {| files := ∅;
     writable := fun _ => true;
     requests_get := fun _ =>
       Ok {| status_code := 200; content := body; json := Ok demo_site |};
     base_path := "/srv/app";
     out := [] |}.

(** A world in which nothing can be written. *)
Definition demo_read_only : World :=
  {| files := ∅;
     writable := fun _ => false;
     requests_get := fun _ =>
       Ok {| status_code := 200; content := "{}"; json := Ok demo_site |};
     base_path := "/srv/app";
     out := [] |}.

(** The text of the one float of [demo_config], and its reading. *)
Definition demo_float_repr (f : spec_float) : string :=
  match f with
  | S754_finite false 3%positive (-1)%Z => "1.5"
  | _ => "0.0"
  end.

Definition demo_float_of_str (s : string) : spec_float :=
  if String.eqb s "1.5" then one_and_a_half else S754_zero false.

(** ** The lines of the loader, the setter and the writer *)

Definition reading_file (path : string) : event :=
  logging_info [txt "📖 Reading file: "; txt path].

Definition read_config_error (e : exn) : event :=
  logging_error [txt "❌ Error reading configuration file: "; exc e].

Definition set_key_error (section key : string) (to_site : bool) (e : exn)
  : event :=
  builtin_print
    [txt "Error setting key '"; txt key; txt "' in section '"; txt section;
     txt "' of "; txt (if to_site then "site" else "main"); txt " config: ";
     exc e].

Definition write_config_error (e : exn) : event :=
  builtin_print [txt "Error writing configuration file: "; exc e].

(** ** What the loader and the fetch leave behind *)

(** The site store after [update_site_config]: the parsed body of an answer
    with status 200, the store as it was otherwise. *)
Definition site_after_fetch (w : World) (site : pyvalue) : pyvalue :=
  match requests_get w api_url with
  | Ok response =>
      if (status_code response =? 200)%Z then
        match json response with
        | Ok body => body
        | Err _ => site
        end
      else site
  | Err _ => site
  end.

(** The download of the default configuration cannot succeed: the request
    raises, answers with a status other than 200, or the file cannot be
    written. *)
Definition download_fails (w : World) (path : string) : Prop :=
  match requests_get w default_config_url with
  | Ok response => status_code response <> 200%Z \/ writable w path = false
  | Err _ => True
  end.

(** ** Counting and character classes *)

(** How often the character occurs in the string. *)
Fixpoint count_char (c : ascii) (s : string) : nat :=
  match s with
  | EmptyString => O
  | String x s' => (if Ascii.eqb x c then 1 else 0) + count_char c s'
  end.

(** The character is one of the 128 of ASCII. *)
Definition is_ascii (c : ascii) : bool := (code c <? 128)%N.

(** Bytes that every text decoding of a file reads as the same characters:
    ASCII without carriage returns (reading in text mode makes a line feed
    of a carriage return). *)
Definition plain_char (c : ascii) : bool :=
  is_ascii c && negb (Ascii.eqb c "013").

Definition reads_as_written (data : string) : bool := str_all plain_char data.

(** * Proofs *)

(** ** Proofs: the monad *)

Arguments String.append !s1 s2 : simpl nomatch.
Arguments newline_indent : simpl never.
Arguments cache_key : simpl never.
Arguments key_not_found : simpl never.
Arguments read_key_log : simpl never.

Ltac run :=
  repeat (unfold mbind, M_bind, mret, M_ret, raise, sys_exit, lift,
            try_except, emit, set_cache, set_config, set_configSite,
            set_store, get_self, get_world, put_self, put_world, http_get,
            write_file; cbn).

Lemma dict_get_set_eq {A} (d : list (string * A)) k v :
  dict_get (dict_set d k v) k = Some v.
Proof.
  induction d as [|[k' v'] d IH]; cbn.
  - now rewrite String.eqb_refl.
  - destruct (String.eqb k' k) eqn:E; cbn; rewrite E; auto.
Qed.

Lemma dict_get_set_ne {A} (d : list (string * A)) k k' v :
  k <> k' -> dict_get (dict_set d k v) k' = dict_get d k'.
Proof.
  intros Hne. induction d as [|[k0 v0] d IH]; cbn.
  - destruct (String.eqb k k') eqn:E; auto.
    apply String.eqb_eq in E. contradiction.
  - destruct (String.eqb k0 k) eqn:E; cbn.
    + apply String.eqb_eq in E. subst k0.
      destruct (String.eqb k k') eqn:E'; auto.
      apply String.eqb_eq in E'. contradiction.
    + now rewrite IH.
Qed.

(** ** Proofs: read_key *)

(** A cache hit: the entry is returned and nothing but the log changes. *)
Lemma read_key_hit section key data_type from_site self w cached :
  cache self !! cache_key from_site section key = Some cached ->
  read_key section key data_type from_site (self, w)
  = (Returns cached, (self, add_out (read_key_log from_site section key) w)).
Proof.
  intros Hc. unfold read_key. run. now rewrite Hc.
Qed.

(** A cache miss on a key the store holds: the value is converted, cached
    and returned; a failed conversion is raised and caches nothing. *)
Lemma read_key_miss section key data_type from_site self w raw :
  cache self !! cache_key from_site section key = None ->
  store_lookup (store from_site self) section key = Some raw ->
  read_key section key data_type from_site (self, w)
  = match _convert_to_data_type raw data_type with
    | Ok v =>
        (Returns v,
         (with_cache (cache_key from_site section key) v self,
          add_out (read_key_log from_site section key) w))
    | Err e =>
        (Raises e, (self, add_out (read_key_log from_site section key) w))
    end.
Proof.
  intros Hc Hl. unfold read_key. run. rewrite Hc.
  unfold store_lookup in Hl.
  destruct (store from_site self) as [| | | | |l|d] eqn:Hs; try discriminate.
  destruct (dict_get d section) as [[| | | | |l|m]|] eqn:Hd; try discriminate.
  unfold py_contains, py_getitem, dict_has. rewrite Hd. run.
  rewrite Hl. run.
  destruct (_convert_to_data_type raw data_type); reflexivity.
Qed.

(** C1. When the composite cache key of (origin, section, key) is in the
    cache, [read_key] returns the cached value at once, whatever data type is
    requested and whatever the two stores hold: no store is consulted, no
    conversion is made, and the class is left as it was (only the log line
    of the call is written). *)
Theorem read_key_cached_value_wins :
  forall section key data_type from_site self w cached,
    cache self !! cache_key from_site section key = Some cached ->
    read_key section key data_type from_site (self, w)
    = (Returns cached, (self, add_out (read_key_log from_site section key) w))
    /\ forall data_type' main site,
        fst (read_key section key data_type' from_site
               (with_config main (with_configSite site self), w))
        = Returns cached.
Proof.
  intros section key data_type from_site self w cached Hc. split.
  - now apply read_key_hit.
  - intros data_type' main site.
    rewrite (read_key_hit _ _ _ _ _ _ cached); [reflexivity | exact Hc].
Qed.

(** C2. On a cache miss, when the section is missing from the selected
    store, or is a mapping that lacks the key, [read_key] raises the
    ValueError "Key ... not found ..." to its caller, and the class (both
    stores and the cache) is left as it was. *)
Theorem read_key_key_not_found :
  forall section key data_type from_site self w,
    cache self !! cache_key from_site section key = None ->
    key_absent (store from_site self) section key ->
    read_key section key data_type from_site (self, w)
    = (Raises (key_not_found section key from_site),
       (self, add_out (read_key_log from_site section key) w)).
Proof.
  intros section key data_type from_site self w Hc (d & Hs & Habs).
  unfold read_key. run. rewrite Hc, Hs.
  unfold py_contains, py_getitem, dict_has.
  destruct Habs as [Hd | (m & Hd & Hk)]; rewrite Hd; run.
  - reflexivity.
  - rewrite Hk. reflexivity.
Qed.

(** ** Proofs: set_key *)

Lemma dict_set_set {A} (d : list (string * A)) k v v' :
  dict_set (dict_set d k v) k v' = dict_set d k v'.
Proof.
  induction d as [|[k0 v0] d IH]; cbn.
  - now rewrite String.eqb_refl.
  - destruct (String.eqb k0 k) eqn:E; cbn; rewrite E; [reflexivity|].
    now rewrite IH.
Qed.

Lemma store_lookup_assign st section key value :
  section_ready st section ->
  store_lookup (store_assign st section key value) section key = Some value.
Proof.
  intros (d & -> & _). unfold store_assign, store_lookup.
  rewrite dict_get_set_eq. apply dict_get_set_eq.
Qed.

Lemma set_key_ok section key value to_site self w :
  section_ready (store to_site self) section ->
  set_key section key value to_site (self, w)
  = (Returns tt, (after_set_key section key value to_site self, w)).
Proof.
  intros (d & Hs & Hsec). unfold set_key, after_set_key.
  destruct to_site; cbn in Hs; run; rewrite Hs;
    unfold py_contains, py_setitem2, py_getitem, py_setitem, dict_has,
      store_assign, section_dict;
    destruct Hsec as [Hd | (m & Hd)]; rewrite Hd; run;
    rewrite ?dict_get_set_eq, ?Hd; run; rewrite ?dict_set_set; reflexivity.
Qed.

Lemma dict_get_Forall {A} (P : string * A -> Prop) d k v :
  Forall P d -> dict_get d k = Some v -> exists k', P (k', v).
Proof.
  induction 1 as [|[k0 v0] d H0 Hd IH]; cbn; [discriminate|].
  destruct (String.eqb k0 k); [intros [= <-]; eauto | exact IH].
Qed.

Lemma dict_set_Forall {A} (P : string * A -> Prop) d k v :
  (forall k', P (k', v)) -> Forall P d -> Forall P (dict_set d k v).
Proof.
  intros Hv. induction 1 as [|[k0 v0] d H0 Hd IH]; cbn.
  - repeat constructor. apply Hv.
  - destruct (String.eqb k0 k); constructor; auto.
Qed.

Lemma well_formed_empty : well_formed_store (VDict []).
Proof. exists []. split; [reflexivity | constructor]. Qed.

Lemma well_formed_section_ready st section :
  well_formed_store st -> section_ready st section.
Proof.
  intros (d & -> & Hd). exists d. split; [reflexivity|].
  destruct (dict_get d section) as [v|] eqn:E; [right | now left].
  destruct (dict_get_Forall _ _ _ _ Hd E) as (k' & m & Hm). cbn in Hm.
  subst v. eauto.
Qed.

Lemma well_formed_assign st section key value :
  well_formed_store st ->
  well_formed_store (store_assign st section key value).
Proof.
  intros (d & -> & Hd). unfold store_assign. eexists. split; [reflexivity|].
  apply dict_set_Forall; [|exact Hd]. intros k'. cbn. eauto.
Qed.

(** C3. [set_key(section, key, value)] on the main store (where the section
    is missing or a mapping) puts [value] at [store[section][key]], creating
    the section when missing, leaves the site store alone, and writes the
    same unconverted [value] into the cache under the composite key; the
    [get(section, key)] that follows returns exactly [value] from the cache
    and the files on disk are those from before the two calls. *)
Theorem set_key_then_get_returns_value :
  forall section key value self w,
    section_ready (config self) section ->
    let self' := after_set_key section key value false self in
    set_key section key value false (self, w) = (Returns tt, (self', w))
    /\ config self' = store_assign (config self) section key value
    /\ store_lookup (config self') section key = Some value
    /\ configSite self' = configSite self
    /\ cache self' = <[cache_key false section key := value]> (cache self)
    /\ get section key (self', w)
       = (Returns value, (self', add_out (read_key_log false section key) w))
    /\ files (snd (snd (get section key (self', w)))) = files w.
Proof.
  intros section key value self w Hr self'.
  assert (Hget : get section key (self', w)
     = (Returns value, (self', add_out (read_key_log false section key) w))).
  { unfold get. apply read_key_hit. subst self'. cbn.
    apply lookup_insert_eq. }
  repeat split.
  - now apply (set_key_ok section key value false).
  - cbn. now apply store_lookup_assign.
  - exact Hget.
  - now rewrite Hget.
Qed.

(** ** Proofs: the conversions of read_key *)

Lemma py_bool_truthy value : py_bool value = true <-> truthy value.
Proof.
  destruct value as [|b|n|f|s|l|d]; cbn.
  - split; [discriminate | contradiction].
  - reflexivity.
  - now rewrite negb_true_iff, Z.eqb_neq.
  - destruct f; split; try congruence; try discriminate.
    intros H. now specialize (H s).
  - now rewrite negb_true_iff, String.eqb_neq.
  - destruct l; split; congruence.
  - destruct d; split; congruence.
Qed.

(** C4. On a cache miss a read with data type [bool] returns (and caches)
    the truthiness of the raw value: true exactly for a non-empty string, a
    non-zero number, a non-empty container and the boolean true, hence false
    for the empty string, zero, an empty container and null.  The string
    "false" is not empty, so it reads as true. *)
Theorem read_key_bool_is_truthiness :
  forall section key from_site self w raw,
    cache self !! cache_key from_site section key = None ->
    store_lookup (store from_site self) section key = Some raw ->
    read_key section key ty_bool from_site (self, w)
    = (Returns (VBool (py_bool raw)),
       (with_cache (cache_key from_site section key) (VBool (py_bool raw)) self,
        add_out (read_key_log from_site section key) w))
    /\ (py_bool raw = true <-> truthy raw)
    /\ (raw = VStr "false" -> py_bool raw = true).
Proof.
  intros section key from_site self w raw Hc Hl. repeat split.
  - now rewrite (read_key_miss _ _ _ _ _ _ raw Hc Hl).
  - apply py_bool_truthy.
  - apply py_bool_truthy.
  - intros ->. reflexivity.
Qed.

(** C7. On a cache miss a read with data type [float] returns (and caches)
    the raw value unchanged, with no parsing, and so does a read with
    [dict], [str] or any type that is not [int], [bool], [list] or
    [NoneType]; [get_float] and [get_site_float] are such reads. *)
Theorem read_key_float_passes_raw_value :
  forall section key data_type from_site self w raw,
    cache self !! cache_key from_site section key = None ->
    store_lookup (store from_site self) section key = Some raw ->
    passes_through data_type ->
    read_key section key data_type from_site (self, w)
    = (Returns raw,
       (with_cache (cache_key from_site section key) raw self,
        add_out (read_key_log from_site section key) w))
    /\ passes_through ty_float
    /\ get_float section key = read_key section key ty_float false
    /\ get_site_float section key = read_key section key ty_float true.
Proof.
  intros section key data_type from_site self w raw Hc Hl Hp.
  repeat split.
  rewrite (read_key_miss _ _ _ _ _ _ raw Hc Hl).
  destruct data_type; cbn in Hp; try contradiction; reflexivity.
Qed.

(** ** Proofs: the two downloads *)

Arguments fetching_site : simpl never.
Arguments site_fetched : simpl never.
Arguments site_status_failure : simpl never.
Arguments site_error : simpl never.

(** What [update_site_config] does, by what the request brings back. *)
Lemma update_site_config_cases self w :
  update_site_config (self, w)
  = match requests_get w api_url with
    | Err e =>
        (Returns tt, (self, add_out (site_error e) (add_out fetching_site w)))
    | Ok response =>
        if (status_code response =? 200)%Z then
          match json response with
          | Ok site =>
              (Returns tt,
               (with_configSite site self,
                add_out site_fetched (add_out fetching_site w)))
          | Err e =>
              (Returns tt,
               (self, add_out (site_error e) (add_out fetching_site w)))
          end
        else
          (Returns tt,
           (self, add_out (site_status_failure (status_code response))
                    (add_out fetching_site w)))
    end.
Proof.
  unfold update_site_config. run.
  destruct (requests_get w api_url) as [response|e]; run; [|reflexivity].
  destruct (status_code response =? 200)%Z; run; [|reflexivity].
  destruct (json response); reflexivity.
Qed.

(** Whatever the request brings back, [update_site_config] returns and
    changes at most the site store and the terminal. *)
Lemma update_site_config_returns self w :
  exists self' w',
    update_site_config (self, w) = (Returns tt, (self', w'))
    /\ config self' = config self /\ cache self' = cache self
    /\ file_path self' = file_path self /\ files w' = files w.
Proof.
  rewrite update_site_config_cases.
  destruct (requests_get w api_url) as [response|e].
  - destruct (status_code response =? 200)%Z.
    + destruct (json response) as [site|e]; eexists _, _; repeat split.
    + eexists _, _; repeat split.
  - eexists _, _; repeat split.
Qed.


Arguments downloading : simpl never.
Arguments download_status_failure : simpl never.
Arguments download_error : simpl never.
Arguments downloaded : simpl never.

(** What [download_requirements] does, by what the request brings back
    and whether the destination can be written. *)
Lemma download_requirements_cases url filename self w :
  download_requirements url filename (self, w)
  = match requests_get w url with
    | Err e =>
        (Exits 0, (self, add_out (download_error filename e)
                           (add_out (downloading url filename) w)))
    | Ok response =>
        if (status_code response =? 200)%Z then
          if writable w filename then
            (Returns tt,
             (self, add_out (downloaded filename)
                      (with_file filename (content response)
                         (add_out (downloading url filename) w))))
          else
            (Exits 0, (self, add_out (download_error filename (Exn OSError None))
                               (add_out (downloading url filename) w)))
        else
          (Exits 0,
           (self, add_out (download_status_failure filename (status_code response))
                    (add_out (downloading url filename) w)))
    end.
Proof.
  unfold download_requirements. run.
  destruct (requests_get w url) as [response|e]; run; [|reflexivity].
  destruct (status_code response =? 200)%Z; run; [|reflexivity].
  destruct (writable w filename); reflexivity.
Qed.


(** The exit is not an [Exception]: when the file is missing and the
    download of the default fails, [read_config] ends the process too, and
    logs no error of its own. *)
Lemma read_config_exit_passes self w :
  files w !! file_path self = None ->
  match requests_get w default_config_url with
  | Ok response => status_code response <> 200%Z
  | Err _ => True
  end ->
  exists w', read_config float_of_str (self, w) = (Exits 0, (self, w'))
             /\ files w' = files w.
Proof.
  intros Hfile Hreq. unfold read_config, path_exists. run. rewrite Hfile. run.
  match goal with
  | |- context [download_requirements ?u ?f (?s, ?x)] =>
      rewrite (download_requirements_cases u f s x)
  end.
  cbn [requests_get add_out].
  destruct (requests_get w default_config_url) as [response|e].
  - apply Z.eqb_neq in Hreq. rewrite Hreq. eexists. split; reflexivity.
  - eexists. split; reflexivity.
Qed.

(** ** Proofs: split and strip *)

Lemma append_cons c (a b : string) : String c a +:+ b = String c (a +:+ b).
Proof. reflexivity. Qed.

Lemma append_nil_l (b : string) : EmptyString +:+ b = b.
Proof. reflexivity. Qed.

Lemma append_nil_r (a : string) : a +:+ EmptyString = a.
Proof. induction a as [|c a IH]; [reflexivity|]. now rewrite append_cons, IH. Qed.

Lemma append_assoc (a b c : string) : (a +:+ b) +:+ c = a +:+ (b +:+ c).
Proof.
  induction a as [|x a IH]; [reflexivity|]. now rewrite !append_cons, IH.
Qed.

Lemma split_not_nil sep s : split sep s <> [].
Proof.
  destruct s as [|c s]; cbn; [discriminate|].
  destruct (Ascii.eqb c sep); [discriminate|].
  destruct (split sep s); discriminate.
Qed.

Lemma concat_cons sep x l :
  l <> [] -> String.concat sep (x :: l) = x +:+ sep +:+ String.concat sep l.
Proof. destruct l; [congruence | reflexivity]. Qed.

(** Joining the pieces with the separator gives the string back. *)
Lemma split_concat sep s :
  String.concat (String sep "") (split sep s) = s.
Proof.
  induction s as [|c s IH]; cbn [split]; [reflexivity|].
  destruct (Ascii.eqb c sep) eqn:E.
  - apply Ascii.eqb_eq in E. subst c.
    rewrite concat_cons by apply split_not_nil. cbn. now rewrite IH.
  - pose proof (split_not_nil sep s) as Hn.
    destruct (split sep s) as [|p ps]; [congruence|].
    destruct ps as [|q ps]; cbn in *; now rewrite <- IH.
Qed.

(** No piece holds the separator. *)
Lemma split_lacks sep s : Forall (fun p => lacks sep p = true) (split sep s).
Proof.
  induction s as [|c s IH]; cbn [split].
  - repeat constructor.
  - destruct (Ascii.eqb c sep) eqn:E.
    + constructor; [reflexivity | exact IH].
    + destruct (split sep s) as [|p ps].
      * repeat constructor. cbn. now rewrite E.
      * inversion IH; subst. constructor; [|assumption].
        unfold lacks in *. cbn. now rewrite E.
Qed.

Lemma lstrip_spec s :
  exists l, s = l +:+ lstrip s /\ str_all isspace l = true
            /\ forall c, first_char (lstrip s) = Some c -> isspace c = false.
Proof.
  unfold lstrip. induction s as [|c s (l & Hl & Hs & Hf)]; cbn.
  - exists EmptyString. split; [reflexivity|]. split; [reflexivity|]. discriminate.
  - destruct (isspace c) eqn:E.
    + exists (String c l). split; [rewrite append_cons; now rewrite <- Hl|].
      split; [cbn; now rewrite E|]. exact Hf.
    + exists EmptyString. split; [reflexivity|]. split; [reflexivity|].
      cbn. congruence.
Qed.

Lemma rstrip_spec s :
  exists r, s = rstrip s +:+ r /\ str_all isspace r = true
            /\ forall c, last_char (rstrip s) = Some c -> isspace c = false.
Proof.
  induction s as [|c s (r & Hr & Hs & Hf)]; cbn [rstrip].
  - exists EmptyString. split; [reflexivity|]. split; [reflexivity|]. discriminate.
  - destruct (rstrip s) as [|d t] eqn:Hrs.
    + rewrite append_nil_l in Hr. subst r. destruct (isspace c) eqn:E.
      * exists (String c s). split; [reflexivity|].
        split; [cbn; now rewrite E|]. discriminate.
      * exists s. split; [reflexivity|]. split; [assumption|].
        cbn. congruence.
    + exists r. split; [rewrite append_cons; congruence|].
      split; [assumption|]. exact Hf.
Qed.

Lemma rstrip_first s c :
  first_char (rstrip s) = Some c -> first_char s = Some c.
Proof.
  destruct s as [|a s]; cbn; [discriminate|].
  destruct (rstrip s); [destruct (isspace a)|]; cbn; congruence.
Qed.

(** [strip] removes white space at both ends and nothing else. *)
Lemma strip_is_trim piece : is_trim piece (strip piece).
Proof.
  unfold strip.
  destruct (lstrip_spec piece) as (l & Hl & Hls & Hlf).
  destruct (rstrip_spec (lstrip piece)) as (r & Hr & Hrs & Hrl).
  exists l, r. repeat split; auto.
  - rewrite <- Hr. exact Hl.
  - intros c Hc. apply Hlf. now apply rstrip_first.
Qed.

Lemma strip_all_trim pieces : Forall2 is_trim pieces (map strip pieces).
Proof. induction pieces; constructor; auto using strip_is_trim. Qed.

Lemma str_drop_while_app p l s :
  str_all p l = true -> starts_with p s = false ->
  str_drop_while p (l +:+ s) = s.
Proof.
  intros Hl Hs. induction l as [|c l IH]; cbn in *.
  - destruct s as [|c s]; [reflexivity|]. cbn in *. now rewrite Hs.
  - apply andb_true_iff in Hl as [Hc Hl]. rewrite ?append_cons. cbn.
    rewrite Hc. auto.
Qed.

Lemma str_drop_while_spec p s :
  exists l, s = l +:+ str_drop_while p s /\ str_all p l = true
            /\ starts_with p (str_drop_while p s) = false.
Proof.
  induction s as [|c s (l & Hl & Hp & Hs)]; cbn.
  - exists EmptyString. repeat split.
  - destruct (p c) eqn:E.
    + exists (String c l). split; [now rewrite ?append_cons, <- Hl|].
      split; [cbn; now rewrite E|]. exact Hs.
    + exists EmptyString. split; [reflexivity|]. split; [reflexivity|].
      exact E.
Qed.

(** The pieces are determined by the two properties: cutting a string
    that is pieces without the separator, joined by it, gives those pieces. *)
Lemma split_lacking sep p : lacks sep p = true -> split sep p = [p].
Proof.
  unfold lacks. induction p as [|c p IH]; [reflexivity|]. cbn.
  intros H. apply andb_true_iff in H as [Hc Hp].
  apply negb_true_iff in Hc. rewrite Hc. now rewrite IH.
Qed.

Lemma split_app_sep sep p s :
  lacks sep p = true -> split sep (p +:+ String sep s) = p :: split sep s.
Proof.
  unfold lacks. induction p as [|c p IH]; cbn.
  - intros _. now rewrite Ascii.eqb_refl.
  - intros H. apply andb_true_iff in H as [Hc Hp].
    apply negb_true_iff in Hc. rewrite Hc. now rewrite IH.
Qed.

Lemma split_unique sep pieces :
  pieces <> [] -> Forall (fun p => lacks sep p = true) pieces ->
  split sep (String.concat (String sep "") pieces) = pieces.
Proof.
  induction pieces as [|p pieces IH]; intros Hne Hall; [congruence|].
  inversion Hall as [|? ? Hp Hps]; subst.
  destruct pieces as [|q pieces].
  - cbn. now apply split_lacking.
  - rewrite concat_cons by discriminate.
    change (String sep "" +:+ ?t) with (String sep t).
    rewrite split_app_sep by assumption. f_equal. now apply IH.
Qed.

Lemma rstrip_spaces r : str_all isspace r = true -> rstrip r = EmptyString.
Proof.
  induction r as [|c r IH]; [reflexivity|]. cbn.
  intros H. apply andb_true_iff in H as [Hc Hr]. now rewrite IH, Hc.
Qed.

Lemma rstrip_app t r :
  str_all isspace r = true ->
  (forall c, last_char t = Some c -> isspace c = false) ->
  rstrip (t +:+ r) = t.
Proof.
  intros Hr. induction t as [|c t IH]; intros Hlast.
  - now apply rstrip_spaces.
  - cbn [String.append rstrip]. destruct t as [|d t].
    + cbn [String.append]. rewrite (rstrip_spaces r Hr).
      now rewrite (Hlast c eq_refl).
    + rewrite IH; [reflexivity|]. intros c' Hc'. now apply Hlast.
Qed.

(** And the item by the piece: what [is_trim] relates to a piece is its
    [strip]. *)
Lemma is_trim_unique piece item : is_trim piece item -> strip piece = item.
Proof.
  intros (l & r & -> & Hl & Hr & Hfirst & Hlast). unfold strip, lstrip.
  destruct item as [|c item].
  - cbn [String.append].
    assert (Hall : str_all isspace (l +:+ r) = true).
    { clear Hfirst Hlast. induction l as [|x l IH]; [exact Hr|].
      cbn in *. apply andb_true_iff in Hl as [Hx Hl]. now rewrite Hx, IH. }
    destruct (str_drop_while_spec isspace (l +:+ r)) as (l' & Hs & Hl' & Hd).
    destruct (str_drop_while isspace (l +:+ r)) as [|y rest] eqn:E;
      [reflexivity|].
    exfalso. cbn in Hd. rewrite Hs in Hall. clear - Hall Hd.
    induction l' as [|x l' IH]; cbn in Hall.
    + rewrite Hd in Hall. discriminate.
    + apply andb_true_iff in Hall as [_ Hall]. now apply IH.
  - rewrite str_drop_while_app; [|assumption|].
    + now apply rstrip_app.
    + cbn. now apply Hfirst.
Qed.

(** C5. On a cache miss a read with data type [list] returns (and caches) a
    raw value that is a list as it is; a raw string is cut at its commas
    (the pieces, joined by commas, are the string, and no piece holds a
    comma, which determines the pieces: [split_unique]) and each piece is
    returned without the white space around it ([is_trim_unique]).
    "a, b,c" gives ["a", "b", "c"]. *)
Theorem read_key_list_splits_on_commas :
  forall section key from_site self w raw,
    cache self !! cache_key from_site section key = None ->
    store_lookup (store from_site self) section key = Some raw ->
    let read v :=
      read_key section key ty_list from_site (self, w)
      = (Returns v,
         (with_cache (cache_key from_site section key) v self,
          add_out (read_key_log from_site section key) w)) in
    (forall l, raw = VList l -> read raw)
    /\ (forall s, raw = VStr s ->
        exists pieces items,
          read (VList (map VStr items))
          /\ pieces <> [] /\ String.concat "," pieces = s
          /\ Forall (fun p => lacks "," p = true) pieces
          /\ Forall2 is_trim pieces items)
    /\ (raw = VStr "a, b,c" -> read (VList [VStr "a"; VStr "b"; VStr "c"])).
Proof.
  intros section key from_site self w raw Hc Hl read. subst read. cbn beta.
  rewrite (read_key_miss _ _ _ _ _ _ raw Hc Hl).
  repeat apply conj.
  - intros l ->. reflexivity.
  - intros s ->. exists (split "," s), (map strip (split "," s)).
    repeat apply conj.
    + cbn. now rewrite map_map.
    + apply split_not_nil.
    + apply split_concat.
    + apply split_lacks.
    + apply strip_all_trim.
  - intros ->. reflexivity.
Qed.

(** ** Proofs: int of a string *)

Lemma digit_not_space c : is_digit c = true -> int_space c = false.
Proof.
  unfold is_digit, int_space. intros H.
  apply andb_true_iff in H as [H1 H2].
  apply N.leb_le in H1. apply N.leb_le in H2.
  repeat (apply orb_false_iff; split);
    rewrite ?andb_false_iff, ?N.leb_gt, ?N.eqb_neq; lia.
Qed.

Lemma digit_not_char c d :
  is_digit c = true -> is_digit d = false -> Ascii.eqb c d = false.
Proof.
  intros Hc Hd. apply Ascii.eqb_neq. congruence.
Qed.

Lemma space_not_char c d :
  int_space c = true -> int_space d = false -> Ascii.eqb c d = false.
Proof.
  intros Hc Hd. apply Ascii.eqb_neq. congruence.
Qed.

Lemma grouped_digits_head b ds :
  grouped_digits b ds ->
  exists c b' ds', b = String c b' /\ ds = String c ds' /\ is_digit c = true.
Proof. destruct 1; eauto 7. Qed.

Lemma scan_digits_stop acc r :
  ends_digits r -> scan_digits acc r = Some (acc, r).
Proof.
  intros [H1 H2]. destruct r as [|c r]; [reflexivity|].
  cbn in *. now rewrite H1, H2.
Qed.

Lemma scan_digits_grouped b ds :
  grouped_digits b ds ->
  forall acc r, ends_digits r ->
    scan_digits acc (b +:+ r) = Some (decimal_value acc ds, r).
Proof.
  induction 1 as [c Hc | c b ds Hc Hb IH | c b ds Hc Hb IH]; intros acc r Hr.
  - rewrite ?append_cons, ?append_nil_l. cbn. rewrite Hc.
    now apply scan_digits_stop.
  - rewrite ?append_cons. cbn. rewrite Hc. now apply IH.
  - rewrite ?append_cons. cbn. rewrite Hc.
    destruct (grouped_digits_head _ _ Hb) as (d & b' & ds' & -> & -> & Hd).
    rewrite ?append_cons.
    cbn. rewrite Hd.
    specialize (IH (acc * 10 + digit_val c)%Z r Hr).
    rewrite ?append_cons in IH. cbn in IH. rewrite Hd in IH. exact IH.
Qed.

Lemma spaces_end_digits r : str_all int_space r = true -> ends_digits r.
Proof.
  destruct r as [|c r]; cbn; [split; reflexivity|].
  intros H. apply andb_true_iff in H as [Hc _]. split; cbn.
  - destruct (is_digit c) eqn:E; [|reflexivity].
    apply digit_not_space in E. congruence.
  - apply space_not_char; [assumption | reflexivity].
Qed.

(** Every integer literal is read as the integer it writes. *)
Lemma int_of_str_literal s n : int_literal s n -> int_of_str s = Some n.
Proof.
  intros [l sgn k b ds r Hl Hr Hk Hb].
  destruct (grouped_digits_head _ _ Hb) as (c & b' & ds' & -> & -> & Hc).
  unfold int_of_str.
  assert (Hscan : scan_digits (digit_val c) (b' +:+ r)
                  = Some (decimal_value 0 (String c ds'), r)).
  { pose proof (scan_digits_grouped _ _ Hb 0%Z r (spaces_end_digits r Hr)) as H.
    rewrite ?append_cons in H. cbn in H. rewrite Hc in H. exact H. }
  set (v := decimal_value 0 (String c ds')) in *. clearbody v.
  rewrite str_drop_while_app; [|assumption|].
  - destruct Hk; rewrite ?append_nil_l, ?append_cons.
    + unfold split_sign.
      rewrite (digit_not_char c "+" Hc eq_refl), (digit_not_char c "-" Hc eq_refl).
      rewrite Hc, Hscan, Hr. f_equal; lia.
    + cbn. rewrite ?append_cons, Hc, Hscan, Hr. f_equal; lia.
    + cbn. rewrite ?append_cons, Hc, Hscan, Hr. f_equal; lia.
  - destruct Hk; rewrite ?append_nil_l, ?append_cons; cbn;
      auto using digit_not_space.
Qed.

Lemma scan_digits_sound len :
  forall s, (String.length s <= len)%nat ->
  forall acc n rest c,
    is_digit c = true ->
    scan_digits acc s = Some (n, rest) ->
    exists b ds,
      s = b +:+ rest
      /\ grouped_digits (String c b) (String c ds)
      /\ n = decimal_value acc ds.
Proof.
  induction len as [|len IH]; intros s Hlen acc n rest c Hc Hs.
  - destruct s; [|cbn in Hlen; lia]. cbn in Hs. injection Hs as <- <-.
    exists EmptyString, EmptyString. repeat split. now constructor.
  - destruct s as [|d s]; cbn in Hs.
    + injection Hs as <- <-.
      exists EmptyString, EmptyString. repeat split. now constructor.
    + cbn in Hlen. destruct (is_digit d) eqn:Hd.
      * destruct (IH s ltac:(lia) _ _ _ d Hd Hs) as (b & ds & -> & Hg & ->).
        exists (String d b), (String d ds). repeat split.
        now apply gd_next.
      * destruct (Ascii.eqb d "_") eqn:Hu.
        -- apply Ascii.eqb_eq in Hu. subst d.
           destruct s as [|e s]; [discriminate|].
           destruct (is_digit e) eqn:He; [|discriminate]. cbn in Hlen.
           destruct (IH s ltac:(lia) _ _ _ e He Hs) as (b & ds & -> & Hg & ->).
           exists (String "_" (String e b)), (String e ds). repeat split.
           now apply gd_under.
        -- injection Hs as <- <-.
           exists EmptyString, (EmptyString). repeat split. now constructor.
Qed.

Lemma decimal_value_head c ds :
  decimal_value 0 (String c ds) = decimal_value (digit_val c) ds.
Proof. reflexivity. Qed.

(** Whatever [int] reads from a string is an integer literal with that
    value. *)
Lemma int_of_str_sound s n : int_of_str s = Some n -> int_literal s n.
Proof.
  unfold int_of_str. intros H.
  destruct (str_drop_while_spec int_space s) as (l & Hs & Hl & _).
  destruct (split_sign (str_drop_while int_space s)) as [neg s2] eqn:Hsign.
  destruct s2 as [|c s3]; [discriminate|].
  destruct (is_digit c) eqn:Hc; [|discriminate].
  destruct (scan_digits (digit_val c) s3) as [[m rest]|] eqn:Hscan;
    [|discriminate].
  destruct (str_all int_space rest) eqn:Hr; [|discriminate].
  injection H as <-.
  destruct (scan_digits_sound _ s3 (le_n _) _ _ _ c Hc Hscan)
    as (b & ds & -> & Hg & ->).
  assert (Hsgn : exists sgn k,
             str_drop_while int_space s = sgn +:+ String c (b +:+ rest)
             /\ sign_of sgn k
             /\ (if neg then - decimal_value (digit_val c) ds
                 else decimal_value (digit_val c) ds)
                = (k * decimal_value 0 (String c ds))%Z).
  { unfold split_sign in Hsign.
    destruct (str_drop_while int_space s) as [|a t]; [discriminate|].
    destruct (Ascii.eqb a "+") eqn:Ea.
    - apply Ascii.eqb_eq in Ea. subst a. injection Hsign as <- <-.
      exists "+", 1%Z. repeat split; try (now constructor);
          rewrite decimal_value_head; lia.
    - destruct (Ascii.eqb a "-") eqn:Eb.
      + apply Ascii.eqb_eq in Eb. subst a. injection Hsign as <- <-.
        exists "-", (-1)%Z. repeat split; try (now constructor);
          rewrite decimal_value_head; lia.
      + injection Hsign as <- <- <-.
        exists EmptyString, 1%Z. repeat split; try (now constructor);
          rewrite decimal_value_head; lia. }
  destruct Hsgn as (sgn & k & Hd & Hk & ->).
  rewrite Hs, Hd.
  replace (String c (b +:+ rest)) with (String c b +:+ rest) by reflexivity.
  now constructor.
Qed.

Lemma int_of_str_iff s n : int_of_str s = Some n <-> int_literal s n.
Proof. split; [apply int_of_str_sound | apply int_of_str_literal]. Qed.

(** *** The decimal numeral of an integer *)

Lemma uint_all_digits u :
  str_all is_digit (NilEmpty.string_of_uint u) = true.
Proof. induction u; cbn; auto. Qed.

Lemma of_uint_acc_value u acc :
  Z.pos (Pos.of_uint_acc u acc)
  = decimal_value (Z.pos acc) (NilEmpty.string_of_uint u).
Proof.
  revert acc. induction u; intros acc; cbn [Pos.of_uint_acc
    NilEmpty.string_of_uint decimal_value]; [reflexivity|..];
    rewrite IHu; f_equal; unfold digit_val; cbn; lia.
Qed.

Lemma all_digits_grouped ds :
  str_all is_digit ds = true ->
  forall c, is_digit c = true -> grouped_digits (String c ds) (String c ds).
Proof.
  induction ds as [|d ds IH]; intros H c Hc.
  - now constructor.
  - cbn in H. apply andb_true_iff in H as [Hd H].
    apply gd_next; auto.
Qed.

(** The numeral of a positive number: digits, the first of them not zero,
    writing the number. *)
Lemma pos_numeral p :
  exists c ds,
    NilEmpty.string_of_uint (Pos.to_uint p) = String c ds
    /\ is_digit c = true /\ Ascii.eqb c "0" = false
    /\ str_all is_digit ds = true
    /\ decimal_value 0 (String c ds) = Z.pos p.
Proof.
  pose proof (DecimalPos.Unsigned.of_to p) as Hof.
  pose proof (DecimalPos.Unsigned.to_of (Pos.to_uint p)) as Hto.
  rewrite Hof in Hto. cbn [N.to_uint] in Hto.
  pose proof (DecimalPos.Unsigned.to_uint_nonzero p) as Hnz.
  assert (Hhead : Pos.to_uint p = Decimal.nzhead (Pos.to_uint p)).
  { rewrite Hto at 1. unfold Decimal.unorm.
    destruct (Decimal.nzhead (Pos.to_uint p)) eqn:E; try reflexivity.
    exfalso. apply Hnz. rewrite Hto. unfold Decimal.unorm. now rewrite E. }
  pose proof (uint_all_digits (Pos.to_uint p)) as Hall.
  destruct (Pos.to_uint p) as [|u|u|u|u|u|u|u|u|u|u] eqn:E.
  - exfalso. now apply (DecimalPos.Unsigned.to_uint_nonnil p).
  - exfalso. symmetry in Hhead. now apply DecimalFacts.nzhead_nonzero in Hhead.
  - eexists _, _. split; [reflexivity|]. cbn in Hall. repeat split; auto.
    cbn in Hof. injection Hof as <-. now rewrite of_uint_acc_value.
  - eexists _, _. split; [reflexivity|]. cbn in Hall. repeat split; auto.
    cbn in Hof. injection Hof as <-. now rewrite of_uint_acc_value.
  - eexists _, _. split; [reflexivity|]. cbn in Hall. repeat split; auto.
    cbn in Hof. injection Hof as <-. now rewrite of_uint_acc_value.
  - eexists _, _. split; [reflexivity|]. cbn in Hall. repeat split; auto.
    cbn in Hof. injection Hof as <-. now rewrite of_uint_acc_value.
  - eexists _, _. split; [reflexivity|]. cbn in Hall. repeat split; auto.
    cbn in Hof. injection Hof as <-. now rewrite of_uint_acc_value.
  - eexists _, _. split; [reflexivity|]. cbn in Hall. repeat split; auto.
    cbn in Hof. injection Hof as <-. now rewrite of_uint_acc_value.
  - eexists _, _. split; [reflexivity|]. cbn in Hall. repeat split; auto.
    cbn in Hof. injection Hof as <-. now rewrite of_uint_acc_value.
  - eexists _, _. split; [reflexivity|]. cbn in Hall. repeat split; auto.
    cbn in Hof. injection Hof as <-. now rewrite of_uint_acc_value.
  - eexists _, _. split; [reflexivity|]. cbn in Hall. repeat split; auto.
    cbn in Hof. injection Hof as <-. now rewrite of_uint_acc_value.
Qed.

Lemma nilzero_pos p :
  NilZero.string_of_uint (Pos.to_uint p)
  = NilEmpty.string_of_uint (Pos.to_uint p).
Proof.
  pose proof (DecimalPos.Unsigned.to_uint_nonnil p).
  now destruct (Pos.to_uint p).
Qed.

(** The shape of [int.__repr__]: an optional minus, then ["0"] alone or
    digits that do not start with a zero. *)
Lemma intstr_shape n :
  exists sgn k c ds,
    intstr n = sgn +:+ String c ds
    /\ (sgn = EmptyString /\ k = 1%Z \/ sgn = "-" /\ k = (-1)%Z)
    /\ is_digit c = true /\ str_all is_digit ds = true
    /\ (Ascii.eqb c "0" = true -> ds = EmptyString)
    /\ n = (k * decimal_value 0 (String c ds))%Z.
Proof.
  unfold intstr. destruct n as [|p|p]; cbn [Z.to_int NilZero.string_of_int].
  - exists EmptyString, 1%Z, "0"%char, EmptyString. cbn. repeat split; auto.
  - destruct (pos_numeral p) as (c & ds & Hs & Hc & H0 & Hds & Hv).
    exists EmptyString, 1%Z, c, ds. rewrite nilzero_pos, Hs.
    repeat split; auto; [congruence | lia].
  - destruct (pos_numeral p) as (c & ds & Hs & Hc & H0 & Hds & Hv).
    exists "-", (-1)%Z, c, ds. rewrite nilzero_pos, Hs.
    repeat split; auto; [congruence | lia].
Qed.

(** The decimal numeral of [n] is an integer literal that writes [n]. *)
Lemma intstr_literal n : int_literal (intstr n) n.
Proof.
  destruct (intstr_shape n) as (sgn & k & c & ds & -> & Hk & Hc & Hds & _ & ->).
  pose proof (int_literal_intro EmptyString sgn k (String c ds) (String c ds)
                EmptyString eq_refl eq_refl) as H.
  rewrite append_nil_l, append_nil_r in H. apply H.
  - destruct Hk as [[-> ->] | [-> ->]]; constructor.
  - now apply all_digits_grouped.
Qed.

Lemma int_of_str_intstr n : int_of_str (intstr n) = Some n.
Proof. apply int_of_str_literal, intstr_literal. Qed.


(** ** Proofs: what json.dump writes, json.load reads back *)

(** *** Strings *)

Lemma scanstring_escape_char c r :
  scanstring (escape_char c +:+ r)
  = match scanstring r with
    | Some (str, r') => Some (String c str, r')
    | None => None
    end.
Proof.
  destruct c as [[] [] [] [] [] [] [] []]; reflexivity.
Qed.

Lemma scanstring_escape s rest :
  scanstring (escape s +:+ String dquote rest) = Some (s, rest).
Proof.
  induction s as [|c s IH]; [reflexivity|].
  cbn [escape]. rewrite append_assoc, scanstring_escape_char. now rewrite IH.
Qed.

(** *** Numbers *)

Lemma delim_cases rest :
  delim rest = true ->
  rest = EmptyString \/ exists r, rest = String "," r \/ rest = String LF r.
Proof.
  destruct rest as [|c r]; [now left|]. cbn. intros H. right. exists r.
  apply orb_true_iff in H as [H|H]; apply Ascii.eqb_eq in H; subst; auto.
Qed.

Ltac by_delim H :=
  apply delim_cases in H as [-> | (? & [-> | ->])].

Lemma span_app rest a :
  delim rest = true ->
  span is_digit (a +:+ rest)
  = (fst (span is_digit a), snd (span is_digit a) +:+ rest).
Proof.
  intros Hr. induction a as [|c a IH].
  - by_delim Hr; reflexivity.
  - cbn. destruct (is_digit c); [|reflexivity].
    rewrite IH. now destruct (span is_digit a).
Qed.

Lemma span_all_digits ds rest :
  str_all is_digit ds = true -> delim rest = true ->
  span is_digit (ds +:+ rest) = (ds, rest).
Proof.
  intros Hds Hr. induction ds as [|c ds IH].
  - by_delim Hr; reflexivity.
  - cbn in *. apply andb_true_iff in Hds as [-> Hds]. now rewrite IH.
Qed.

Lemma match_integer_app rest t i r :
  delim rest = true ->
  match_integer t = Some (i, r) ->
  match_integer (t +:+ rest) = Some (i, r +:+ rest).
Proof.
  intros Hr. unfold match_integer.
  destruct t as [|a t]; [discriminate|]. cbn.
  destruct (Ascii.eqb a "-").
  - destruct t as [|c t]; [discriminate|]. cbn.
    destruct (Ascii.eqb c "0"); [now intros [= <- <-]|].
    destruct (is_digit c); [|discriminate].
    rewrite (span_app rest t Hr).
    destruct (span is_digit t). now intros [= <- <-].
  - destruct (Ascii.eqb a "0"); [now intros [= <- <-]|].
    destruct (is_digit a); [|discriminate].
    rewrite (span_app rest t Hr).
    destruct (span is_digit t). now intros [= <- <-].
Qed.

Lemma match_frac_app rest r :
  delim rest = true ->
  match_frac (r +:+ rest)
  = (fst (match_frac r), snd (match_frac r) +:+ rest).
Proof.
  intros Hr. unfold match_frac.
  destruct r as [|c [|d r]].
  - by_delim Hr; [reflexivity| |]; cbn; now destruct x.
  - by_delim Hr; cbn; rewrite ?andb_false_r; reflexivity.
  - cbn. destruct (Ascii.eqb c "." && is_digit d); [|reflexivity].
    rewrite (span_app rest r Hr). now destruct (span is_digit r).
Qed.

Lemma match_exp_app rest r :
  delim rest = true ->
  match_exp (r +:+ rest)
  = (fst (match_exp r), snd (match_exp r) +:+ rest).
Proof.
  intros Hr. unfold match_exp.
  destruct r as [|e r].
  - by_delim Hr; reflexivity.
  - cbn. destruct (Ascii.eqb e "e" || Ascii.eqb e "E"); [|reflexivity].
    destruct r as [|c r].
    + by_delim Hr; reflexivity.
    + cbn. destruct (Ascii.eqb c "-" || Ascii.eqb c "+").
      * destruct r as [|d r].
        -- by_delim Hr; reflexivity.
        -- cbn. destruct (is_digit d); [|reflexivity].
           rewrite (span_app rest r Hr). now destruct (span is_digit r).
      * destruct (is_digit c); [|reflexivity].
        rewrite (span_app rest r Hr). now destruct (span is_digit r).
Qed.

Lemma match_number_app rest t i fr ex r :
  delim rest = true ->
  match_number t = Some (i, fr, ex, r) ->
  match_number (t +:+ rest) = Some (i, fr, ex, r +:+ rest).
Proof.
  intros Hr. unfold match_number.
  destruct (match_integer t) as [[i' r0]|] eqn:Hi; [|discriminate].
  rewrite (match_integer_app rest t i' r0 Hr Hi).
  rewrite (match_frac_app rest r0 Hr).
  destruct (match_frac r0) as [fr' r1]. cbn [fst snd].
  rewrite (match_exp_app rest r1 Hr).
  destruct (match_exp r1) as [ex' r2]. cbn [fst snd].
  now intros [= <- <- <- <-].
Qed.

(** The groups of a match and what follows make up the text. *)
Lemma span_text p s : fst (span p s) +:+ snd (span p s) = s.
Proof.
  induction s as [|c s IH]; [reflexivity|]. cbn.
  destruct (p c); [|reflexivity].
  destruct (span p s). cbn in *. now rewrite IH.
Qed.

Lemma match_integer_text t i r : match_integer t = Some (i, r) -> t = i +:+ r.
Proof.
  unfold match_integer. destruct t as [|a t]; [discriminate|].
  destruct (Ascii.eqb a "-") eqn:Ea.
  - apply Ascii.eqb_eq in Ea. subst a.
    destruct t as [|c t]; [discriminate|].
    destruct (Ascii.eqb c "0") eqn:E0.
    + apply Ascii.eqb_eq in E0. subst c. now intros [= <- <-].
    + destruct (is_digit c); [|discriminate].
      pose proof (span_text is_digit t) as Ht.
      destruct (span is_digit t). intros [= <- <-]. cbn in *. now rewrite Ht.
  - destruct (Ascii.eqb a "0") eqn:E0.
    + apply Ascii.eqb_eq in E0. subst a. now intros [= <- <-].
    + destruct (is_digit a); [|discriminate].
      pose proof (span_text is_digit t) as Ht.
      destruct (span is_digit t). intros [= <- <-]. cbn in *. now rewrite Ht.
Qed.

Lemma match_frac_text r : fst (match_frac r) +:+ snd (match_frac r) = r.
Proof.
  unfold match_frac. destruct r as [|c [|d r]]; try reflexivity.
  destruct (Ascii.eqb c "." && is_digit d); [|reflexivity].
  pose proof (span_text is_digit r) as Ht.
  destruct (span is_digit r). cbn in *. now rewrite Ht.
Qed.

Lemma match_exp_text r : fst (match_exp r) +:+ snd (match_exp r) = r.
Proof.
  unfold match_exp. destruct r as [|e r]; [reflexivity|].
  destruct (Ascii.eqb e "e" || Ascii.eqb e "E"); [|reflexivity].
  destruct r as [|c r]; [reflexivity|].
  destruct (Ascii.eqb c "-" || Ascii.eqb c "+").
  - destruct r as [|d r]; [reflexivity|].
    destruct (is_digit d); [|reflexivity].
    pose proof (span_text is_digit r) as Ht.
    destruct (span is_digit r). cbn in *. now rewrite Ht.
  - destruct (is_digit c); [|reflexivity].
    pose proof (span_text is_digit r) as Ht.
    destruct (span is_digit r). cbn in *. now rewrite Ht.
Qed.

Lemma match_number_text t i fr ex r :
  match_number t = Some (i, fr, ex, r) -> t = i +:+ fr +:+ ex +:+ r.
Proof.
  unfold match_number.
  destruct (match_integer t) as [[i' r0]|] eqn:Hi; [|discriminate].
  apply match_integer_text in Hi. subst t.
  pose proof (match_frac_text r0) as Hf.
  destruct (match_frac r0) as [fr' r1]. cbn [fst snd] in Hf.
  pose proof (match_exp_text r1) as He.
  destruct (match_exp r1) as [ex' r2]. cbn [fst snd] in He.
  intros [= <- <- <- <-]. now rewrite He, Hf.
Qed.

Lemma number_head t i r :
  match_integer t = Some (i, r) ->
  exists c t', t = String c t' /\ (is_digit c = true \/ c = "-"%char).
Proof.
  unfold match_integer. destruct t as [|a t]; [discriminate|].
  intros H. exists a, t. split; [reflexivity|].
  destruct (Ascii.eqb a "-") eqn:Ea; [apply Ascii.eqb_eq in Ea; auto|].
  destruct (Ascii.eqb a "0") eqn:E0.
  - apply Ascii.eqb_eq in E0. subst a. now left.
  - destruct (is_digit a); [now left | discriminate].
Qed.

Lemma digit_bits c :
  is_digit c = true ->
  exists b0 b1 b2 b3, c = Ascii b0 b1 b2 b3 true true false false.
Proof.
  destruct c as [b0 b1 b2 b3 b4 b5 b6 b7]. intros H.
  exists b0, b1, b2, b3.
  destruct b0, b1, b2, b3, b4, b5, b6, b7; try discriminate; reflexivity.
Qed.

(** A number opens with a digit or a minus, so with none of the characters
    the other values open with. *)
Lemma number_start_facts c :
  is_digit c = true \/ c = "-"%char ->
  value_start c = true
  /\ Ascii.eqb c dquote = false /\ Ascii.eqb c "{" = false
  /\ Ascii.eqb c "[" = false
  /\ Ascii.eqb "n" c = false /\ Ascii.eqb "t" c = false
  /\ Ascii.eqb "f" c = false.
Proof.
  intros [H | ->]; [|repeat split].
  destruct (digit_bits c H) as (b0 & b1 & b2 & b3 & ->).
  destruct b0, b1, b2, b3; repeat split.
Qed.

Lemma scan_scalar_number t i fr ex rest :
  match_number t = Some (i, fr, ex, EmptyString) ->
  delim rest = true ->
  scalar (t +:+ rest)
  = if nonempty fr || nonempty ex
    then Some (VFloat (float_of_str t), rest)
    else match int_of_str i with
         | Some n => Some (VInt n, rest)
         | None => None
         end.
Proof.
  intros Hm Hr. unfold scan_scalar.
  pose proof (match_number_text _ _ _ _ _ Hm) as Ht.
  rewrite !append_nil_r in Ht.
  rewrite (match_number_app rest _ _ _ _ _ Hr Hm). cbn [String.append].
  unfold match_number in Hm.
  destruct (match_integer t) as [[i' r0]|] eqn:Hi; [|discriminate].
  destruct (number_head _ _ _ Hi) as (c & t' & -> & Hc).
  destruct (number_start_facts c Hc) as (_ & _ & _ & _ & Hn & Ht' & Hf).
  cbn [String.append is_prefix]. rewrite Hn, Ht', Hf. cbn [andb].
  now rewrite <- Ht.
Qed.

Lemma match_number_intstr n :
  match_number (intstr n) = Some (intstr n, EmptyString, EmptyString, EmptyString).
Proof.
  destruct (intstr_shape n) as (sgn & k & c & ds & -> & Hk & Hc & Hds & H0 & _).
  assert (Hspan : span is_digit ds = (ds, EmptyString)).
  { pose proof (span_all_digits ds EmptyString Hds eq_refl) as H.
    now rewrite append_nil_r in H. }
  assert (Hm : Ascii.eqb c "-" = false) by now apply digit_not_char.
  unfold match_number, match_integer.
  destruct Hk as [[-> _] | [-> _]]; cbn [String.append]; cbn.
  - rewrite Hm. destruct (Ascii.eqb c "0") eqn:E0.
    + rewrite (H0 eq_refl). apply Ascii.eqb_eq in E0. now subst c.
    + now rewrite Hc, Hspan.
  - destruct (Ascii.eqb c "0") eqn:E0.
    + rewrite (H0 eq_refl). apply Ascii.eqb_eq in E0. now subst c.
    + now rewrite Hc, Hspan.
Qed.

Lemma scan_scalar_int n rest :
  delim rest = true -> scalar (intstr n +:+ rest) = Some (VInt n, rest).
Proof.
  intros Hr. rewrite (scan_scalar_number _ _ _ _ _ (match_number_intstr n) Hr).
  cbn. now rewrite int_of_str_intstr.
Qed.

Lemma scan_scalar_float f rest :
  float_text_ok f -> delim rest = true ->
  scalar (floatstr float_repr f +:+ rest) = Some (VFloat f, rest).
Proof.
  intros Hf Hr.
  assert (Hlit : forall g,
             is_float_literal (float_repr g) = true ->
             float_of_str (float_repr g) = g ->
             scalar (float_repr g +:+ rest) = Some (VFloat g, rest)).
  { intros g Hl Hg. unfold is_float_literal in Hl.
    destruct (match_number (float_repr g)) as [[[[i fr] ex] [|]]|] eqn:Hm;
      try discriminate.
    rewrite (scan_scalar_number _ _ _ _ _ Hm Hr), Hl. now rewrite Hg. }
  destruct f as [s|s| |s m e]; cbn [floatstr float_text_ok] in *.
  - now apply Hlit.
  - destruct s; reflexivity.
  - reflexivity.
  - now apply Hlit.
Qed.

(** *** White space and the first character of a value *)

Lemma skip_ws_start c r :
  is_ws c = false -> skip_ws (String c r) = String c r.
Proof. intros H. unfold skip_ws. cbn. now rewrite H. Qed.

Lemma skip_ws_spaces n s : skip_ws (spaces n +:+ s) = skip_ws s.
Proof. induction n as [|n IH]; [reflexivity|]. exact IH. Qed.

Lemma skip_ws_newline_indent level s :
  skip_ws (newline_indent level +:+ s) = skip_ws s.
Proof. unfold newline_indent. cbn. apply skip_ws_spaces. Qed.

Lemma delim_newline_indent level s :
  delim (newline_indent level +:+ s) = true.
Proof. reflexivity. Qed.

Lemma value_start_ws c : value_start c = true -> is_ws c = false.
Proof.
  unfold value_start. intros H. apply andb_true_iff in H as [H _].
  now apply negb_true_iff.
Qed.

Lemma value_start_bracket c :
  value_start c = true -> Ascii.eqb c "]" = false.
Proof.
  unfold value_start. intros H. apply andb_true_iff in H as [_ H].
  now apply negb_true_iff.
Qed.

Lemma enc_head v level :
  json_exact v ->
  exists c r, enc v level = String c r /\ value_start c = true.
Proof.
  intros Hv. destruct v as [|[]|n|f|s|[|x l]|[|[k x] d]];
    try (eexists _, _; split; [reflexivity|reflexivity]).
  - cbn [iterencode].
    destruct (intstr_shape n) as (sgn & k & c & ds & -> & Hk & Hc & _).
    destruct (number_start_facts c (or_introl Hc)) as (Hs & _).
    destruct Hk as [[-> _] | [-> _]]; eexists _, _; split;
      try reflexivity; assumption.
  - cbn [iterencode]. inversion Hv as [| | |f' Hf| | |]; subst.
    assert (Hlit : forall g, is_float_literal (float_repr g) = true ->
               exists c r, float_repr g = String c r /\ value_start c = true).
    { intros g Hl. unfold is_float_literal, match_number in Hl.
      destruct (match_integer (float_repr g)) as [[i r0]|] eqn:Hi;
        [|discriminate].
      destruct (number_head _ _ _ Hi) as (c & t' & Ht & Hc).
      destruct (number_start_facts c Hc) as (Hs & _). eauto. }
    destruct f as [s|[]| |s m e]; cbn [floatstr float_text_ok] in *;
      try (eexists _, _; split; [reflexivity|reflexivity]);
      apply Hlit; tauto.
Qed.

(** *** Lists *)

Arguments item_sep : simpl never.

Lemma concat_head sep level x items :
  json_exact x ->
  exists c r,
    String.concat sep (map (fun v => enc v level) (x :: items)) = String c r
    /\ value_start c = true.
Proof.
  intros Hx. destruct (enc_head x level Hx) as (c & r & Hc & Hs).
  destruct items as [|y items].
  - exists c, r. now rewrite <- Hc.
  - exists c, (r +:+ sep +:+ String.concat sep (map (fun v => enc v level) (y :: items))).
    split; [|assumption].
    change (enc x level +:+ sep +:+
            String.concat sep (map (fun v => enc v level) (y :: items))
            = String c (r +:+ sep +:+
                String.concat sep (map (fun v => enc v level) (y :: items)))).
    now rewrite Hc.
Qed.

Lemma array_loop_items sc level items :
  forall fuel acc rest,
    items <> [] -> (length items <= fuel)%nat ->
    Forall (reads_back sc (S level)) items ->
    array_loop sc fuel acc
      (String.concat (item_sep level) (map (fun v => enc v (S level)) items)
       +:+ newline_indent level +:+ String "]" rest)
    = Some ((acc ++ items)%list, rest).
Proof.
  induction items as [|x items IH]; intros fuel acc rest Hne Hlen Hall;
    [congruence|].
  destruct fuel as [|fuel]; [cbn in Hlen; lia|].
  inversion Hall as [|? ? [Hx Hsc] Hall']; subst.
  destruct items as [|y items].
  - cbn [map String.concat array_loop].
    rewrite Hsc by apply delim_newline_indent.
    rewrite skip_ws_newline_indent. cbn. reflexivity.
  - cbn [map]. rewrite concat_cons by discriminate.
    rewrite !append_assoc. cbn [array_loop].
    rewrite Hsc by reflexivity.
    unfold item_sep at 1. rewrite !append_assoc.
    cbn [String.append]. rewrite skip_ws_start by reflexivity.
    cbn [Ascii.eqb Bool.eqb].
    rewrite skip_ws_newline_indent.
    inversion Hall' as [|? ? [Hy _] _]; subst.
    destruct (concat_head (item_sep level) (S level) y items Hy)
      as (c & r & Hc & Hs).
    rewrite Hc at 1. cbn [String.append].
    rewrite skip_ws_start by now apply value_start_ws.
    change (String c (r +:+ newline_indent level +:+ String "]" rest))
      with (String c r +:+ newline_indent level +:+ String "]" rest).
    rewrite <- Hc. rewrite IH; [|discriminate|cbn in *; lia|assumption].
    now rewrite <- app_assoc.
Qed.

(** *** Dictionaries *)

Lemma enc_item_head level k x :
  enc_item level (k, x)
  = String dquote (escape k +:+ String dquote (": " +:+ enc x (S level))).
Proof.
  unfold enc_item, encode_basestring_ascii. cbn [String.append].
  now rewrite !append_assoc.
Qed.

Lemma skip_ws_value x level rest :
  json_exact x -> skip_ws (enc x level +:+ rest) = enc x level +:+ rest.
Proof.
  intros Hx. destruct (enc_head x level Hx) as (c & r & -> & Hs).
  cbn [String.append]. apply skip_ws_start. now apply value_start_ws.
Qed.

Lemma object_loop_items sc level items :
  forall fuel acc rest T,
    items <> [] -> (length items <= fuel)%nat ->
    Forall (fun item => reads_back sc (S level) (snd item)) items ->
    String.concat (item_sep level) (map (enc_item level) items)
    +:+ newline_indent level +:+ String "}" rest = String dquote T ->
    object_loop sc fuel acc T = Some ((acc ++ items)%list, rest).
Proof.
  induction items as [|[k x] items IH]; intros fuel acc rest T Hne Hlen Hall HT;
    [congruence|].
  destruct fuel as [|fuel]; [cbn in Hlen; lia|].
  inversion Hall as [|? ? [Hx Hsc] Hall']; subst. cbn [snd] in *.
  destruct items as [|[k' y] items].
  - cbn [map String.concat] in HT. rewrite enc_item_head in HT.
    cbn [String.append] in HT.
    apply (f_equal (str_drop 1)) in HT. cbn [str_drop] in HT. subst T.
    rewrite !append_assoc. cbn [String.append object_loop].
    rewrite scanstring_escape. cbn [String.append].
    rewrite skip_ws_start by reflexivity. cbn [Ascii.eqb Bool.eqb].
    change (skip_ws (String " " ?s)) with (skip_ws s).
    rewrite skip_ws_value by assumption.
    rewrite Hsc by apply delim_newline_indent.
    rewrite skip_ws_newline_indent. cbn. reflexivity.
  - cbn [map] in HT. rewrite concat_cons in HT by discriminate.
    rewrite enc_item_head in HT. rewrite !append_assoc in HT.
    cbn [String.append] in HT.
    apply (f_equal (str_drop 1)) in HT. cbn [str_drop] in HT. subst T.
    rewrite !append_assoc. cbn [String.append object_loop].
    rewrite scanstring_escape. cbn [String.append].
    rewrite skip_ws_start by reflexivity. cbn [Ascii.eqb Bool.eqb].
    change (skip_ws (String " " ?s)) with (skip_ws s).
    rewrite skip_ws_value by assumption.
    rewrite Hsc by reflexivity.
    unfold item_sep at 1. rewrite !append_assoc. cbn [String.append].
    rewrite skip_ws_start by reflexivity. cbn [Ascii.eqb Bool.eqb].
    rewrite skip_ws_newline_indent.
    assert (Hhead : exists T',
               String.concat (item_sep level)
                 (map (enc_item level) ((k', y) :: items))
               +:+ newline_indent level +:+ String "}" rest
               = String dquote T').
    { destruct items as [|item items].
      - cbn [map String.concat]. rewrite enc_item_head.
        cbn [String.append]. eauto.
      - cbn [map]. rewrite concat_cons by discriminate.
        rewrite enc_item_head. cbn [String.append]. eauto. }
    destruct Hhead as (T' & HT'). cbn [map] in HT'. rewrite HT'.
    rewrite skip_ws_start by reflexivity.
    rewrite Ascii.eqb_refl.
    rewrite (IH fuel (acc ++ [(k, x)])%list rest T');
      [|discriminate|cbn in *; lia|assumption|exact HT'].
    now rewrite <- app_assoc.
Qed.

Lemma dict_set_fresh {A} (d : list (string * A)) k v :
  ~ In k (map fst d) -> dict_set d k v = (d ++ [(k, v)])%list.
Proof.
  induction d as [|[k' v'] d IH]; intros Hk; [reflexivity|].
  cbn in *. destruct (String.eqb k' k) eqn:E.
  - apply String.eqb_eq in E. exfalso. apply Hk. now left.
  - rewrite IH; [reflexivity|]. intros Hin. apply Hk. now right.
Qed.

Lemma dict_of_pairs_nodup (pairs : list (string * pyvalue)) :
  forall acc : list (string * pyvalue),
    NoDup (map fst (acc ++ pairs)%list) ->
    fold_left (fun d kv => dict_set d (fst kv) (snd kv)) pairs acc
    = (acc ++ pairs)%list.
Proof.
  induction pairs as [|[k v] pairs IH]; intros acc Hnd; cbn.
  - now rewrite app_nil_r.
  - rewrite dict_set_fresh.
    + rewrite IH; rewrite <- app_assoc; [reflexivity | exact Hnd].
    + apply NoDup_ListNoDup in Hnd. rewrite map_app in Hnd. cbn in Hnd.
      apply NoDup_remove_2 in Hnd. intros Hin. apply Hnd.
      apply in_or_app. now left.
Qed.

Lemma dict_of_pairs_exact d : NoDup (map fst d) -> dict_of_pairs d = d.
Proof. intros H. unfold dict_of_pairs. now rewrite dict_of_pairs_nodup. Qed.

(** *** Every value *)

Lemma size_pos v : (1 <= size v)%nat.
Proof. destruct v; cbn; lia. Qed.

Lemma list_sum_bounds {A} (f : A -> nat) l :
  (forall x, 1 <= f x)%nat ->
  (length l <= list_sum (map f l))%nat
  /\ Forall (fun x => (f x <= list_sum (map f l))%nat) l.
Proof.
  intros Hf. induction l as [|x l [IH1 IH2]].
  - split; [cbn; lia | constructor].
  - change (list_sum (map f (x :: l))) with (f x + list_sum (map f l))%nat.
    specialize (Hf x). split; [cbn [length]; lia|]. constructor; [lia|].
    eapply Forall_impl; [exact IH2|]. cbn. intros; lia.
Qed.

Lemma scan_dispatch fuel c t :
  Ascii.eqb c dquote = false -> Ascii.eqb c "{" = false ->
  Ascii.eqb c "[" = false ->
  scan (S fuel) (String c t) = scalar (String c t).
Proof. intros H1 H2 H3. cbn [scan_once]. now rewrite H1, H2, H3. Qed.

Lemma scan_number fuel t i r rest :
  match_integer t = Some (i, r) ->
  scan (S fuel) (t +:+ rest) = scalar (t +:+ rest).
Proof.
  intros Hi. destruct (number_head _ _ _ Hi) as (c & t' & -> & Hc).
  destruct (number_start_facts c Hc) as (_ & H1 & H2 & H3 & _).
  cbn [String.append]. now apply scan_dispatch.
Qed.

Lemma scan_enc v :
  forall level fuel rest,
    json_exact v -> (size v <= fuel)%nat -> delim rest = true ->
    scan fuel (enc v level +:+ rest) = Some (v, rest).
Proof.
  induction v as [|b|n|f|s|l IH|d IH] using pyvalue_forall_ind;
    intros level fuel rest Hv Hf Hr;
    (destruct fuel as [|fuel]; [pose proof (size_pos VNone); cbn in Hf; lia|]).
  - reflexivity.
  - destruct b; reflexivity.
  - cbn [iterencode].
    pose proof (match_number_intstr n) as Hm. unfold match_number in Hm.
    destruct (match_integer (intstr n)) as [[i r]|] eqn:Hi; [|discriminate].
    rewrite (scan_number _ _ _ _ _ Hi). now apply scan_scalar_int.
  - cbn [iterencode]. inversion Hv as [| | |f' Hok| | |]; subst.
    assert (Hlit : forall g, is_float_literal (float_repr g) = true ->
               scan (S fuel) (float_repr g +:+ rest)
               = scalar (float_repr g +:+ rest)).
    { intros g Hl. unfold is_float_literal, match_number in Hl.
      destruct (match_integer (float_repr g)) as [[i r]|] eqn:Hi;
        [|discriminate].
      now apply (scan_number _ _ _ _ _ Hi). }
    destruct f as [sg|[]| |sg m e]; try reflexivity;
      (rewrite <- (scan_scalar_float _ rest Hok Hr); cbn [floatstr];
       apply Hlit; cbn [float_text_ok] in Hok; tauto).
  - cbn [iterencode]. unfold encode_basestring_ascii.
    cbn [String.append scan_once]. rewrite Ascii.eqb_refl.
    rewrite append_assoc. cbn [String.append].
    now rewrite scanstring_escape.
  - destruct l as [|x l]; [reflexivity|].
    inversion Hv as [| | | | |l' Hall|]; subst.
    cbn [iterencode]. rewrite !append_assoc.
    cbn [String.append scan_once Ascii.eqb Bool.eqb dquote].
    rewrite skip_ws_newline_indent.
    inversion Hall as [|? ? Hx Hall']; subst.
    destruct (concat_head (item_sep level) (S level) x l Hx)
      as (c & r & Hc & Hs).
    unfold item_sep in Hc at 1. rewrite Hc at 1. cbn [String.append].
    rewrite skip_ws_start by now apply value_start_ws.
    rewrite (value_start_bracket c Hs).
    change (String c (r +:+ newline_indent level +:+ String "]" rest))
      with (String c r +:+ newline_indent level +:+ String "]" rest).
    rewrite <- Hc.
    change ("," +:+ newline_indent (S level)) with (item_sep level).
    cbn [size] in Hf.
    destruct (list_sum_bounds size (x :: l) size_pos) as [Hlen Hsz].
    rewrite (array_loop_items (scan fuel) level (x :: l) fuel [] rest);
      [reflexivity | discriminate | lia |].
    rewrite Forall_forall in IH, Hall, Hsz. apply Forall_forall.
    intros y Hy. split; [now apply Hall|].
    intros rest' Hr'. apply IH; auto. specialize (Hsz y Hy). lia.
  - destruct d as [|[k x] d]; [reflexivity|].
    inversion Hv as [| | | | | |d' Hnd Hall]; subst.
    cbn [iterencode].
    change (fun item : string * pyvalue =>
              let (key, value) := item in
              encode_basestring_ascii key +:+ ": " +:+ enc value (S level))
      with (enc_item level).
    change ("," +:+ newline_indent (S level)) with (item_sep level).
    rewrite !append_assoc.
    cbn [String.append scan_once Ascii.eqb Bool.eqb dquote].
    rewrite skip_ws_newline_indent.
    assert (Hhead : exists T,
               String.concat (item_sep level)
                 (map (enc_item level) ((k, x) :: d))
               +:+ newline_indent level +:+ String "}" rest
               = String dquote T).
    { destruct d as [|item d].
      - cbn [map String.concat]. rewrite enc_item_head.
        cbn [String.append]. eauto.
      - cbn [map]. rewrite concat_cons by discriminate.
        rewrite enc_item_head. cbn [String.append]. eauto. }
    destruct Hhead as (T & HT). rewrite HT.
    rewrite skip_ws_start by reflexivity.
    change (Ascii.eqb dquote "}") with false. cbn iota.
    rewrite Ascii.eqb_refl.
    cbn [size] in Hf.
    destruct (list_sum_bounds
                (fun item : string * pyvalue =>
                   match item with (_, y) => size y end) ((k, x) :: d)
                ltac:(intros []; apply size_pos)) as [Hlen Hsz].
    rewrite (object_loop_items (scan fuel) level ((k, x) :: d) fuel [] rest T);
      [| discriminate | lia | | exact HT].
    + rewrite app_nil_l. now rewrite dict_of_pairs_exact.
    + rewrite Forall_forall in IH, Hall, Hsz. apply Forall_forall.
      intros [k' y] Hy. split; [now apply (Hall (k', y))|].
      intros rest' Hr'.
      apply (IH (k', y) Hy); [now apply (Hall (k', y)) | | exact Hr'].
      specialize (Hsz (k', y) Hy). cbn beta iota in Hsz. cbn [snd]. lia.
Qed.

(** *** The fuel of json.loads is enough *)

Lemma length_append (a b : string) :
  String.length (a +:+ b) = (String.length a + String.length b)%nat.
Proof. induction a as [|c a IH]; cbn; [reflexivity | now rewrite IH]. Qed.

Lemma concat_length {A} (f : A -> string) (g : A -> nat) sep l :
  Forall (fun x => (g x <= String.length (f x))%nat) l ->
  (list_sum (map g l) <= String.length (String.concat sep (map f l)))%nat.
Proof.
  induction 1 as [|x l Hx Hl IH]; [cbn; lia|].
  change (list_sum (map g (x :: l))) with (g x + list_sum (map g l))%nat.
  destruct l as [|y l].
  - cbn in *. lia.
  - cbn [map]. rewrite concat_cons by discriminate.
    rewrite !length_append. cbn [map] in IH. lia.
Qed.

Lemma size_le_length v :
  forall level, json_exact v -> (size v <= String.length (enc v level))%nat.
Proof.
  induction v as [|b|n|f|s|l IH|d IH] using pyvalue_forall_ind;
    intros level Hv;
    try (destruct (enc_head _ level Hv) as (c & r & -> & _); cbn; lia).
  - destruct l as [|x l]; [cbn; lia|].
    inversion Hv as [| | | | |l' Hall|]; subst.
    cbn [iterencode size]. rewrite !length_append.
    pose proof (concat_length (fun v => enc v (S level)) size
                  ("," +:+ newline_indent (S level)) (x :: l)) as H.
    cbn [String.length]. cbn [String.length] in H.
    enough (list_sum (map size (x :: l))
            <= String.length
                 (String.concat ("," +:+ newline_indent (S level))
                    (map (fun v => enc v (S level)) (x :: l))))%nat by lia.
    apply H. rewrite Forall_forall in IH, Hall. apply Forall_forall.
    intros y Hy. apply IH; auto.
  - destruct d as [|[k x] d]; [cbn; lia|].
    inversion Hv as [| | | | | |d' Hnd Hall]; subst.
    cbn [iterencode size]. rewrite !length_append.
    pose proof (concat_length
                  (fun item : string * pyvalue =>
                     let (key, value) := item in
                     encode_basestring_ascii key +:+ ": " +:+ enc value (S level))
                  (fun item : string * pyvalue =>
                     match item with (_, y) => size y end)
                  ("," +:+ newline_indent (S level)) ((k, x) :: d)) as H.
    cbn [String.length].
    match type of H with
    | _ -> (?a <= ?b)%nat => enough (a <= b)%nat by lia
    end.
    apply H. rewrite Forall_forall in IH, Hall. apply Forall_forall.
    intros [k' y] Hy. rewrite !length_append.
    specialize (IH (k', y) Hy (S level) (Hall (k', y) Hy)). cbn [snd] in IH.
    lia.
Qed.

(** What [json.dump] writes for an exact value, [json.load] reads back as
    that value. *)
Lemma json_loads_dumps v :
  json_exact v -> json_loads float_of_str (json_dumps float_repr v) = Ok v.
Proof.
  intros Hv. unfold json_loads, json_dumps.
  destruct (enc_head v 0 Hv) as (c & r & Hc & Hs).
  rewrite Hc at 2. rewrite skip_ws_start by now apply value_start_ws.
  rewrite <- Hc.
  pose proof (scan_enc v 0 (S (String.length (enc v 0))) EmptyString Hv) as H.
  rewrite append_nil_r in H.
  rewrite H; [reflexivity | | reflexivity].
  pose proof (size_le_length v 0 Hv). lia.
Qed.

(** *** Exact stores stay exact *)

Lemma dict_set_keys {A} (d : list (string * A)) k v :
  NoDup (map fst d) -> NoDup (map fst (dict_set d k v)).
Proof.
  intros Hd. destruct (dict_get d k) as [v0|] eqn:E.
  - assert (Hkeys : map fst (dict_set d k v) = map fst d); [|now rewrite Hkeys].
    clear Hd. induction d as [|[k0 v1] d IH]; [discriminate|]. cbn in *.
    destruct (String.eqb k0 k); [reflexivity|]. cbn. f_equal. now apply IH.
  - assert (Hfresh : ~ In k (map fst d)).
    { clear Hd. induction d as [|[k0 v1] d IH]; [intros []|]. cbn in *.
      destruct (String.eqb k0 k) eqn:Ek; [discriminate|].
      apply String.eqb_neq in Ek. intros [H|H]; [congruence | now apply IH]. }
    rewrite dict_set_fresh by assumption. rewrite map_app. cbn.
    apply NoDup_ListNoDup. apply NoDup_ListNoDup in Hd.
    apply NoDup_Add with (a := k) (l := map fst d); [|constructor; assumption].
    replace (map fst d ++ [k])%list with (map fst d ++ k :: [])%list by reflexivity.
    rewrite <- (app_nil_r (map fst d)) at 1. apply Add_app.
Qed.

(** [set_key] with an exact value keeps an exact store exact: the store
    that [write_config] then writes is read back as it is. *)
Lemma store_assign_exact st section key value :
  json_exact st -> json_exact value ->
  json_exact (store_assign st section key value).
Proof.
  intros Hst Hv. destruct st as [| | | | | |d]; try exact Hst.
  inversion Hst as [| | | | | |d' Hnd Hall]; subst.
  assert (Hsec : json_exact (VDict (section_dict (VDict d) section))).
  { cbn. destruct (dict_get d section) as [[| | | | | |m]|] eqn:E;
      try (constructor; constructor).
    destruct (dict_get_Forall _ _ _ _ Hall E) as (k' & Hm). exact Hm. }
  inversion Hsec as [| | | | | |m Hm1 Hm2]; subst.
  unfold store_assign. constructor.
  - now apply dict_set_keys.
  - apply dict_set_Forall; [|exact Hall]. intros k'. cbn [snd].
    constructor; [now apply dict_set_keys|].
    apply dict_set_Forall; [intros; exact Hv | exact Hm2].
Qed.

(** *** write_config and the load that follows *)

Lemma write_config_writable self w :
  writable w (file_path self) = true ->
  write_config float_repr (self, w)
  = (Returns tt,
     (self, with_file (file_path self) (json_dumps float_repr (config self)) w)).
Proof. intros Hw. unfold write_config. run. now rewrite Hw. Qed.

(** Loading a file that holds the text of an exact value: the main store
    becomes that value, whatever the site request brings back. *)
Lemma read_config_existing self w v :
  files w !! file_path self = Some (json_dumps float_repr v) ->
  json_exact v ->
  exists self' w',
    read_config float_of_str (self, w) = (Returns tt, (self', w'))
    /\ config self' = v /\ file_path self' = file_path self
    /\ files w' = files w.
Proof.
  intros Hfile Hv. unfold read_config, path_exists, load_file. run.
  rewrite Hfile. run. rewrite Hfile. rewrite (json_loads_dumps v Hv). run.
  match goal with
  | |- context [update_site_config (?s, ?x)] =>
      destruct (update_site_config_returns s x)
        as (self' & w' & -> & Hcfg & _ & Hpath & Hfiles)
  end.
  run. eexists _, _. split; [reflexivity|]. repeat split; assumption.
Qed.


(** ** Proofs: the fuel of json.loads never runs out
    [scan_once] gives the same answer for every fuel above the length of
    the text, so a [None] of [json_loads] is a text that is not JSON, never
    a lack of fuel. *)

#[local] Abbreviation len := String.length.

Lemma skip_ws_length s : (len (skip_ws s) <= len s)%nat.
Proof.
  unfold skip_ws. induction s as [|c s IH]; cbn; [lia|].
  destruct (is_ws c); cbn; lia.
Qed.

Lemma scanstring_shorter s :
  forall str r, scanstring s = Some (str, r) -> (len r < len s)%nat.
Proof.
  remember (len s) as n eqn:Hn. revert s Hn.
  induction n as [n IH] using lt_wf_ind. intros s Hn str r.
  destruct s as [|c s]; [discriminate|]. cbn [scanstring].
  destruct (Ascii.eqb c dquote); [intros [= <- <-]; cbn in *; lia|].
  destruct (Ascii.eqb c backslash).
  - destruct s as [|esc s]; [discriminate|].
    destruct (Ascii.eqb esc "u").
    + destruct s as [|h1 [|h2 [|h3 [|h4 s]]]]; try discriminate.
      destruct (decode_uXXXX h1 h2 h3 h4); [|discriminate].
      destruct (scanstring s) as [[str' r']|] eqn:E; [|discriminate].
      intros [= <- <-]. subst n. cbn.
      specialize (IH (len s) ltac:(cbn; lia) s eq_refl _ _ E). lia.
    + destruct (unescape esc); [|discriminate].
      destruct (scanstring s) as [[str' r']|] eqn:E; [|discriminate].
      intros [= <- <-]. subst n. cbn.
      specialize (IH (len s) ltac:(cbn; lia) s eq_refl _ _ E). lia.
  - destruct (code c <? 32)%N; [discriminate|].
    destruct (scanstring s) as [[str' r']|] eqn:E; [|discriminate].
    intros [= <- <-]. subst n. cbn.
    specialize (IH (len s) ltac:(cbn; lia) s eq_refl _ _ E). lia.
Qed.

Lemma str_drop_prefix p s :
  is_prefix p s = true -> (len (str_drop (len p) s) + len p = len s)%nat.
Proof.
  revert s. induction p as [|a p IH]; intros s H; cbn in *; [lia|].
  destruct s as [|b s]; [discriminate|].
  apply andb_true_iff in H as [_ H]. specialize (IH s H). cbn. lia.
Qed.

Lemma match_integer_nonempty t i r :
  match_integer t = Some (i, r) -> (1 <= len i)%nat.
Proof.
  unfold match_integer. destruct t as [|a t]; [discriminate|].
  destruct (Ascii.eqb a "-").
  - destruct t as [|c t]; [discriminate|].
    destruct (Ascii.eqb c "0"); [intros [= <- <-]; cbn; lia|].
    destruct (is_digit c); [|discriminate].
    destruct (span is_digit t). intros [= <- <-]. cbn. lia.
  - destruct (Ascii.eqb a "0"); [intros [= <- <-]; cbn; lia|].
    destruct (is_digit a); [|discriminate].
    destruct (span is_digit t). intros [= <- <-]. cbn. lia.
Qed.

Lemma match_number_shorter t i fr ex r :
  match_number t = Some (i, fr, ex, r) -> (len r < len t)%nat.
Proof.
  intros H. pose proof (match_number_text _ _ _ _ _ H) as Ht.
  unfold match_number in H.
  destruct (match_integer t) as [[i' r0]|] eqn:Hi; [|discriminate].
  apply match_integer_nonempty in Hi.
  destruct (match_frac r0) as [fr' r1]. destruct (match_exp r1) as [ex' r2].
  inversion H; subst. rewrite !length_append. lia.
Qed.

Lemma scan_scalar_shorter s v r :
  scan_scalar float_of_str s = Some (v, r) -> (len r < len s)%nat.
Proof.
  unfold scan_scalar.
  destruct (is_prefix "null" s) eqn:E1.
  { apply str_drop_prefix in E1. intros [= <- <-]. cbn in E1. lia. }
  destruct (is_prefix "true" s) eqn:E2.
  { apply str_drop_prefix in E2. intros [= <- <-]. cbn in E2. lia. }
  destruct (is_prefix "false" s) eqn:E3.
  { apply str_drop_prefix in E3. intros [= <- <-]. cbn in E3. lia. }
  destruct (match_number s) as [[[[i fr] ex] r0]|] eqn:Hm.
  - apply match_number_shorter in Hm.
    destruct (nonempty fr || nonempty ex); [intros [= <- <-]; lia|].
    destruct (int_of_str i); [intros [= <- <-]; lia | discriminate].
  - destruct (is_prefix "NaN" s) eqn:E4.
    { apply str_drop_prefix in E4. intros [= <- <-]. cbn in E4. lia. }
    destruct (is_prefix "Infinity" s) eqn:E5.
    { apply str_drop_prefix in E5. intros [= <- <-]. cbn in E5. lia. }
    destruct (is_prefix "-Infinity" s) eqn:E6; [|discriminate].
    apply str_drop_prefix in E6. intros [= <- <-]. cbn in E6. lia.
Qed.

Lemma array_loop_shorter sc :
  consuming sc ->
  forall fuel values s vs r,
    array_loop sc fuel values s = Some (vs, r) -> (len r < len s)%nat.
Proof.
  intros Hsc. induction fuel as [|fuel IH]; intros values s vs r; [discriminate|].
  cbn [array_loop].
  destruct (sc s) as [[v r0]|] eqn:E; [|discriminate].
  apply Hsc in E. pose proof (skip_ws_length r0) as Hws.
  destruct (skip_ws r0) as [|c r1]; [discriminate|]. cbn in Hws.
  destruct (Ascii.eqb c "]"); [intros [= <- <-]; lia|].
  destruct (Ascii.eqb c ","); [|discriminate].
  intros H. apply IH in H. pose proof (skip_ws_length r1). lia.
Qed.

Lemma object_loop_shorter sc :
  consuming sc ->
  forall fuel pairs s ps r,
    object_loop sc fuel pairs s = Some (ps, r) -> (len r < len s)%nat.
Proof.
  intros Hsc. induction fuel as [|fuel IH]; intros pairs s ps r; [discriminate|].
  cbn [object_loop].
  destruct (scanstring s) as [[key r0]|] eqn:E; [|discriminate].
  apply scanstring_shorter in E. pose proof (skip_ws_length r0) as Hws.
  destruct (skip_ws r0) as [|c r1]; [discriminate|]. cbn in Hws.
  destruct (Ascii.eqb c ":"); [|discriminate].
  pose proof (skip_ws_length r1) as Hws1.
  destruct (sc (skip_ws r1)) as [[v r2]|] eqn:E2; [|discriminate].
  apply Hsc in E2. pose proof (skip_ws_length r2) as Hws2.
  destruct (skip_ws r2) as [|c' r3]; [discriminate|]. cbn in Hws2.
  destruct (Ascii.eqb c' "}"); [intros [= <- <-]; lia|].
  destruct (Ascii.eqb c' ","); [|discriminate].
  pose proof (skip_ws_length r3) as Hws3.
  destruct (skip_ws r3) as [|q r4]; [discriminate|]. cbn in Hws3.
  destruct (Ascii.eqb q dquote); [|discriminate].
  intros H. apply IH in H. lia.
Qed.

Lemma scan_once_shorter fuel : consuming (scan fuel).
Proof.
  induction fuel as [|fuel IH]; intros s v r; [discriminate|].
  cbn [scan_once]. destruct s as [|c s]; [discriminate|].
  destruct (Ascii.eqb c dquote).
  { destruct (scanstring s) as [[str r0]|] eqn:E; [|discriminate].
    apply scanstring_shorter in E. intros [= <- <-]. cbn. lia. }
  destruct (Ascii.eqb c "{").
  { pose proof (skip_ws_length s) as Hws.
    destruct (skip_ws s) as [|c' r0]; [discriminate|]. cbn in Hws.
    destruct (Ascii.eqb c' "}"); [intros [= <- <-]; cbn; lia|].
    destruct (Ascii.eqb c' dquote); [|discriminate].
    destruct (object_loop (scan fuel) fuel [] r0) as [[ps r1]|] eqn:E;
      [|discriminate].
    apply (object_loop_shorter _ IH) in E. intros [= <- <-]. cbn. lia. }
  destruct (Ascii.eqb c "[").
  { pose proof (skip_ws_length s) as Hws.
    destruct (skip_ws s) as [|c' r0]; [discriminate|]. cbn in Hws.
    destruct (Ascii.eqb c' "]"); [intros [= <- <-]; cbn; lia|].
    destruct (array_loop (scan fuel) fuel [] (String c' r0)) as [[vs r1]|] eqn:E;
      [|discriminate].
    apply (array_loop_shorter _ IH) in E. intros [= <- <-]. cbn in *. lia. }
  apply scan_scalar_shorter.
Qed.

Lemma array_loop_fuel sc1 sc2 :
  consuming sc1 ->
  forall n1 n2 values t,
    (len t < n1)%nat -> (len t < n2)%nat ->
    (forall u, (len u <= len t)%nat -> sc1 u = sc2 u) ->
    array_loop sc1 n1 values t = array_loop sc2 n2 values t.
Proof.
  intros Hsc. induction n1 as [|n1 IH]; intros n2 values t H1 H2 Hag; [lia|].
  destruct n2 as [|n2]; [lia|]. cbn [array_loop].
  rewrite <- (Hag t (le_n _)).
  destruct (sc1 t) as [[v r]|] eqn:E; [|reflexivity].
  apply Hsc in E. pose proof (skip_ws_length r) as Hws.
  destruct (skip_ws r) as [|c r1]; [reflexivity|]. cbn in Hws.
  destruct (Ascii.eqb c "]"); [reflexivity|].
  destruct (Ascii.eqb c ","); [|reflexivity].
  pose proof (skip_ws_length r1).
  apply IH; try lia. intros u Hu. apply Hag. lia.
Qed.

Lemma object_loop_fuel sc1 sc2 :
  consuming sc1 ->
  forall n1 n2 pairs t,
    (len t < n1)%nat -> (len t < n2)%nat ->
    (forall u, (len u <= len t)%nat -> sc1 u = sc2 u) ->
    object_loop sc1 n1 pairs t = object_loop sc2 n2 pairs t.
Proof.
  intros Hsc. induction n1 as [|n1 IH]; intros n2 pairs t H1 H2 Hag; [lia|].
  destruct n2 as [|n2]; [lia|]. cbn [object_loop].
  destruct (scanstring t) as [[key r0]|] eqn:E; [|reflexivity].
  apply scanstring_shorter in E. pose proof (skip_ws_length r0) as Hws.
  destruct (skip_ws r0) as [|c r1]; [reflexivity|]. cbn in Hws.
  destruct (Ascii.eqb c ":"); [|reflexivity].
  pose proof (skip_ws_length r1) as Hws1.
  rewrite <- (Hag (skip_ws r1)) by lia.
  destruct (sc1 (skip_ws r1)) as [[v r2]|] eqn:E2; [|reflexivity].
  apply Hsc in E2. pose proof (skip_ws_length r2) as Hws2.
  destruct (skip_ws r2) as [|c' r3]; [reflexivity|]. cbn in Hws2.
  destruct (Ascii.eqb c' "}"); [reflexivity|].
  destruct (Ascii.eqb c' ","); [|reflexivity].
  pose proof (skip_ws_length r3) as Hws3.
  destruct (skip_ws r3) as [|q r4]; [reflexivity|]. cbn in Hws3.
  destruct (Ascii.eqb q dquote); [|reflexivity].
  apply IH; try lia. intros u Hu. apply Hag. lia.
Qed.

(** Above the length of the text, more fuel changes nothing. *)
Lemma scan_once_fuel n :
  forall s f1 f2,
    (len s <= n)%nat -> (n < f1)%nat -> (n < f2)%nat ->
    scan f1 s = scan f2 s.
Proof.
  induction n as [|n IH]; intros s f1 f2 Hs H1 H2;
    (destruct f1 as [|f1]; [lia|]); (destruct f2 as [|f2]; [lia|]);
    (destruct s as [|c s]; [reflexivity|]); cbn in Hs; [lia|].
  cbn [scan_once].
  destruct (Ascii.eqb c dquote); [reflexivity|].
  pose proof (skip_ws_length s) as Hws.
  destruct (Ascii.eqb c "{").
  { destruct (skip_ws s) as [|c' r0]; [reflexivity|]. cbn in Hws.
    destruct (Ascii.eqb c' "}"); [reflexivity|].
    destruct (Ascii.eqb c' dquote); [|reflexivity].
    rewrite (object_loop_fuel (scan f1) (scan f2) (scan_once_shorter f1)
               f1 f2 [] r0); [reflexivity | lia | lia |].
    intros u Hu. apply IH; lia. }
  destruct (Ascii.eqb c "["); [|reflexivity].
  destruct (skip_ws s) as [|c' r0]; [reflexivity|]. cbn in Hws.
  destruct (Ascii.eqb c' "]"); [reflexivity|].
  rewrite (array_loop_fuel (scan f1) (scan f2) (scan_once_shorter f1)
             f1 f2 [] (String c' r0)); [reflexivity | cbn; lia | cbn; lia |].
  intros u Hu. cbn in Hu. apply IH; lia.
Qed.

(** [json_loads] with any fuel above the length of the text. *)
Theorem json_loads_fuel s fuel :
  (String.length s < fuel)%nat ->
  scan fuel (skip_ws s) = scan (S (String.length s)) (skip_ws s).
Proof.
  intros H. pose proof (skip_ws_length s).
  apply (scan_once_fuel (String.length s)); lia.
Qed.

(** ** Proofs: every outcome of read_key *)

(** A cache miss on a key the store does not hold as
    [store[section][key]] of two mappings: [read_key] raises, either the
    error of the missing key or the [TypeError] of a container that is no
    mapping, and the class is left as it was. *)
Lemma read_key_miss_raises section key data_type from_site self w :
  cache self !! cache_key from_site section key = None ->
  store_lookup (store from_site self) section key = None ->
  exists e,
    read_key section key data_type from_site (self, w)
    = (Raises e, (self, add_out (read_key_log from_site section key) w))
    /\ (e = key_not_found section key from_site \/ e = Exn TypeError None).
Proof.
  intros Hc Hl. unfold read_key. run. rewrite Hc.
  unfold store_lookup in Hl.
  destruct (store from_site self) as [| | | |s|l|d] eqn:Hs;
    unfold py_contains, py_getitem, dict_has; run;
    try (eexists; split; [reflexivity | auto]; fail).
  - destruct (is_substring section s); run;
      eexists; (split; [reflexivity | auto]).
  - destruct (existsb _ l); run; eexists; (split; [reflexivity | auto]).
  - destruct (dict_get d section) as [sec|] eqn:Hd; run;
      [|eexists; (split; [reflexivity | auto])].
    destruct sec as [| | | |s|l|m]; run;
      try (eexists; split; [reflexivity | auto]; fail).
    + destruct (is_substring key s); run;
        eexists; (split; [reflexivity | auto]).
    + destruct (existsb _ l); run; eexists; (split; [reflexivity | auto]).
    + rewrite Hl. run. eexists; (split; [reflexivity | auto]).
Qed.

Lemma with_cache_id k v self :
  cache self !! k = Some v -> with_cache k v self = self.
Proof.
  intros H. destruct self as [p c s m]. unfold with_cache. cbn in *.
  f_equal. now apply insert_id.
Qed.

(** X1. Whatever the stores and the cache hold, [read_key] writes its one
    log line and then either returns a value, and the class differs from
    the one before at most by the cache entry of the composite key, which
    now holds the value returned, or raises, and the class is the one
    before.  It never ends the process, never writes a file and never
    changes a store. *)
Theorem read_key_changes_only_its_cache_entry :
  forall section key data_type from_site self w,
    let r := read_key section key data_type from_site (self, w) in
    snd (snd r) = add_out (read_key_log from_site section key) w
    /\ match fst r with
       | Returns v =>
           fst (snd r) = with_cache (cache_key from_site section key) v self
       | Raises _ => fst (snd r) = self
       | Exits _ => False
       end.
Proof.
  intros section key data_type from_site self w.
  destruct (cache self !! cache_key from_site section key) as [cached|] eqn:Hc.
  - rewrite (read_key_hit _ _ data_type _ _ w _ Hc). cbn.
    split; [reflexivity|]. symmetry. now apply with_cache_id.
  - destruct (store_lookup (store from_site self) section key) as [raw|] eqn:Hl.
    + rewrite (read_key_miss _ _ data_type _ _ w raw Hc Hl).
      destruct (_convert_to_data_type raw data_type); cbn; auto.
    + destruct (read_key_miss_raises _ _ data_type _ _ w Hc Hl) as (e & -> & _).
      cbn. auto.
Qed.

(** X2. On a cache miss [read_key] returns a value only when the selected
    store is a mapping that holds a mapping under [section] with [key] in
    it, and then the value is the conversion of what is stored there: no
    default is ever made up. *)
Theorem read_key_returns_only_what_is_stored :
  forall section key data_type from_site self w v,
    cache self !! cache_key from_site section key = None ->
    fst (read_key section key data_type from_site (self, w)) = Returns v
    <-> exists raw,
          store_lookup (store from_site self) section key = Some raw
          /\ _convert_to_data_type raw data_type = Ok v.
Proof.
  intros section key data_type from_site self w v Hc. split.
  - destruct (store_lookup (store from_site self) section key) as [raw|] eqn:Hl.
    + rewrite (read_key_miss _ _ data_type _ _ w raw Hc Hl).
      destruct (_convert_to_data_type raw data_type) as [v'|e] eqn:Hv; cbn;
        [|discriminate].
      intros [= ->]. now exists raw.
    + destruct (read_key_miss_raises _ _ data_type _ _ w Hc Hl) as (e & -> & _).
      discriminate.
  - intros (raw & Hl & Hv). rewrite (read_key_miss _ _ data_type _ _ w raw Hc Hl).
    now rewrite Hv.
Qed.

(** X3. The first conversion wins: once [read_key] has returned a value
    for (origin, section, key), every later read of the same three returns
    that value, whatever data type it asks for and without another
    change to the class. *)
Theorem read_key_first_conversion_wins :
  forall section key data_type from_site self w v self' w',
    read_key section key data_type from_site (self, w)
    = (Returns v, (self', w')) ->
    forall data_type',
      read_key section key data_type' from_site (self', w')
      = (Returns v,
         (self', add_out (read_key_log from_site section key) w')).
Proof.
  intros section key data_type from_site self w v self' w' Hr data_type'.
  apply read_key_hit.
  destruct (cache self !! cache_key from_site section key) as [cached|] eqn:Hc.
  - rewrite (read_key_hit _ _ data_type _ _ w _ Hc) in Hr.
    injection Hr as <- <- _. exact Hc.
  - destruct (store_lookup (store from_site self) section key) as [raw|] eqn:Hl.
    + rewrite (read_key_miss _ _ data_type _ _ w raw Hc Hl) in Hr.
      destruct (_convert_to_data_type raw data_type); [|discriminate].
      injection Hr as <- <- _. cbn. apply lookup_insert_eq.
    + destruct (read_key_miss_raises _ _ data_type _ _ w Hc Hl) as (e & He & _).
      rewrite He in Hr. discriminate.
Qed.

(** X4. A section that is no mapping.  When the store is a mapping but
    holds under [section] something else, [read_key] raises on every cache
    miss: the error of the missing key when [key in store[section]] is
    false (a string without [key] as a substring, a list without [key]),
    and a [TypeError] otherwise (a string or a list that does hold [key],
    which cannot be indexed by it, and null, numbers and booleans, which
    [in] cannot search).  The class is left as it was. *)
Theorem read_key_section_no_mapping :
  forall section key data_type from_site self w d sec,
    cache self !! cache_key from_site section key = None ->
    store from_site self = VDict d ->
    dict_get d section = Some sec ->
    (forall m, sec <> VDict m) ->
    read_key section key data_type from_site (self, w)
    = (Raises (match py_contains sec key with
               | Ok false => key_not_found section key from_site
               | _ => Exn TypeError None
               end),
       (self, add_out (read_key_log from_site section key) w)).
Proof.
  intros section key data_type from_site self w d sec Hc Hs Hd Hsec.
  unfold read_key. run. rewrite Hc, Hs.
  unfold py_contains at 1, dict_has. rewrite Hd. run.
  unfold py_getitem at 1. rewrite Hd. run.
  destruct sec as [| | | |s|l|m]; cbn; try reflexivity.
  - destruct (is_substring key s); run; reflexivity.
  - destruct (existsb _ l); run; reflexivity.
  - now destruct (Hsec m).
Qed.

(** ** Proofs: more of the conversions *)

(** X5. A read with data type [NoneType] throws the stored value away: it
    returns null and caches null, so every later read of the key, with
    whatever data type, returns null too. *)
Theorem read_key_NoneType_discards_the_value :
  forall section key from_site self w raw,
    cache self !! cache_key from_site section key = None ->
    store_lookup (store from_site self) section key = Some raw ->
    let self' := with_cache (cache_key from_site section key) VNone self in
    read_key section key ty_NoneType from_site (self, w)
    = (Returns VNone, (self', add_out (read_key_log from_site section key) w))
    /\ forall data_type w',
        read_key section key data_type from_site (self', w')
        = (Returns VNone,
           (self', add_out (read_key_log from_site section key) w')).
Proof.
  intros section key from_site self w raw Hc Hl self'. split.
  - now rewrite (read_key_miss _ _ _ _ _ _ raw Hc Hl).
  - intros data_type w'. apply read_key_hit. subst self'. cbn.
    apply lookup_insert_eq.
Qed.

(** X6. A read with data type [list] of a value that is neither a list
    nor a string (null, a number, a boolean, a mapping) raises the
    [AttributeError] of the missing [split], and caches nothing. *)
Theorem read_key_list_of_no_string_raises :
  forall section key from_site self w raw,
    cache self !! cache_key from_site section key = None ->
    store_lookup (store from_site self) section key = Some raw ->
    (forall l, raw <> VList l) -> (forall s, raw <> VStr s) ->
    read_key section key ty_list from_site (self, w)
    = (Raises (Exn AttributeError None),
       (self, add_out (read_key_log from_site section key) w)).
Proof.
  intros section key from_site self w raw Hc Hl Hlist Hstr.
  rewrite (read_key_miss _ _ _ _ _ _ raw Hc Hl).
  destruct raw as [| | | |s|l|d]; try reflexivity.
  - now destruct (Hstr s).
  - now destruct (Hlist l).
Qed.

Lemma split_length sep s : length (split sep s) = S (count_char sep s).
Proof.
  induction s as [|c s IH]; [reflexivity|]. cbn.
  destruct (Ascii.eqb c sep); cbn; [now rewrite IH|].
  destruct (split sep s) as [|p ps]; [discriminate | exact IH].
Qed.

Lemma str_all_app p (a b : string) :
  str_all p (a +:+ b) = str_all p a && str_all p b.
Proof.
  induction a as [|c a IH]; [reflexivity|]. cbn. rewrite IH.
  now rewrite andb_assoc.
Qed.

Lemma lacks_strip c piece : lacks c piece = true -> lacks c (strip piece) = true.
Proof.
  destruct (strip_is_trim piece) as (l & r & Hp & _). unfold lacks.
  rewrite Hp at 1. rewrite !str_all_app, !andb_true_iff.
  now intros (_ & H & _).
Qed.

Lemma strip_strip piece : strip (strip piece) = strip piece.
Proof.
  apply is_trim_unique.
  destruct (strip_is_trim piece) as (l & r & _ & _ & _ & Hfirst & Hlast).
  exists EmptyString, EmptyString.
  now rewrite append_nil_l, append_nil_r.
Qed.

(** X7. A read with data type [list] of a string gives one item for each
    comma and one more, so it never gives an empty list: the empty string
    gives one empty item.  No item holds a comma and no item has white
    space around it (stripping it again changes nothing). *)
Theorem read_key_list_one_more_than_commas :
  forall section key from_site self w s,
    cache self !! cache_key from_site section key = None ->
    store_lookup (store from_site self) section key = Some (VStr s) ->
    exists items,
      read_key section key ty_list from_site (self, w)
      = (Returns (VList (map VStr items)),
         (with_cache (cache_key from_site section key)
            (VList (map VStr items)) self,
          add_out (read_key_log from_site section key) w))
      /\ length items = S (count_char "," s)
      /\ Forall (fun item => lacks "," item = true /\ strip item = item) items.
Proof.
  intros section key from_site self w s Hc Hl.
  exists (map strip (split "," s)).
  rewrite (read_key_miss _ _ _ _ _ _ _ Hc Hl). cbn. rewrite map_map.
  split; [reflexivity|]. split.
  - rewrite length_map. apply split_length.
  - apply Forall_map. eapply Forall_impl; [apply split_lacks|].
    intros p Hp. cbn. split; [now apply lacks_strip | apply strip_strip].
Qed.

(** X8. Converting twice is converting once: what [_convert_to_data_type]
    returns for a data type is left as it is by a second conversion to
    that type. *)
Theorem convert_to_data_type_twice :
  forall value data_type v,
    _convert_to_data_type value data_type = Ok v ->
    _convert_to_data_type v data_type = Ok v.
Proof.
  intros value data_type v H.
  destruct data_type; cbn in *; try (now injection H as <-).
  - destruct (py_int value); [|discriminate]. now injection H as <-.
  - destruct value; try discriminate; now injection H as <-.
Qed.

(** ** Proofs: every outcome of set_key *)

Arguments set_key_error : simpl never.

Lemma section_ready_dec st section :
  section_ready st section \/ ~ section_ready st section.
Proof.
  destruct st as [| | | | | |d];
    try (right; intros (d' & [=] & _); fail).
  destruct (dict_get d section) as [sec|] eqn:Hd.
  - destruct sec as [| | | | | |m];
      try (right; intros (d' & [= <-] & [H | (m' & H)]); congruence).
    left. exists d. eauto.
  - left. exists d. eauto.
Qed.

(** On a store in which [section] cannot take a key, the assignment of
    [set_key] raises a [TypeError]: it is printed and nothing is changed. *)
Lemma set_key_not_ready section key value to_site self w :
  ~ section_ready (store to_site self) section ->
  set_key section key value to_site (self, w)
  = (Returns tt,
     (self, add_out (set_key_error section key to_site (Exn TypeError None)) w)).
Proof.
  intros Hn. unfold set_key. run.
  destruct (store to_site self) as [| | | |s|l|d] eqn:Hs;
    unfold py_contains, py_setitem2, py_getitem, py_setitem, dict_has; run;
    try reflexivity.
  - destruct (is_substring section s); reflexivity.
  - destruct (existsb _ l); reflexivity.
  - destruct (dict_get d section) as [sec|] eqn:Hd; run.
    + rewrite Hd. destruct sec as [| | | | | |m]; try reflexivity.
      destruct Hn. exists d. eauto.
    + destruct Hn. exists d. eauto.
Qed.

(** X9. [set_key] never raises and never does half of its work.  Where
    the section is missing from the store or is a mapping, the value is
    assigned and cached and nothing is printed; on every other store the
    [TypeError] of the assignment is printed and the class (both stores and
    the cache) is exactly the one before. *)
Theorem set_key_all_or_nothing :
  forall section key value to_site self w,
    (section_ready (store to_site self) section
     /\ set_key section key value to_site (self, w)
        = (Returns tt, (after_set_key section key value to_site self, w)))
    \/ (~ section_ready (store to_site self) section
        /\ set_key section key value to_site (self, w)
           = (Returns tt,
              (self,
               add_out (set_key_error section key to_site (Exn TypeError None))
                 w))).
Proof.
  intros section key value to_site self w.
  destruct (section_ready_dec (store to_site self) section) as [H|H].
  - left. split; [exact H | now apply set_key_ok].
  - right. split; [exact H | now apply set_key_not_ready].
Qed.

Lemma cache_key_origin section key section' key' :
  cache_key true section key <> cache_key false section' key'.
Proof. unfold cache_key, origin. cbn. discriminate. Qed.

(** X10. [set_key] with [to_site] set writes the site store and the cache
    entry of the site key and nothing else: the main store and every cache
    entry of the main store are as before, and the [get_site] that follows
    returns the value from the cache. *)
Theorem set_key_to_site_then_get_site :
  forall section key value self w,
    section_ready (configSite self) section ->
    let self' := after_set_key section key value true self in
    set_key section key value true (self, w) = (Returns tt, (self', w))
    /\ store_lookup (configSite self') section key = Some value
    /\ config self' = config self
    /\ (forall section' key',
          cache self' !! cache_key false section' key'
          = cache self !! cache_key false section' key')
    /\ get_site section key (self', w)
       = (Returns value, (self', add_out (read_key_log true section key) w)).
Proof.
  intros section key value self w Hr self'. repeat apply conj.
  - now apply (set_key_ok section key value true).
  - cbn. now apply store_lookup_assign.
  - reflexivity.
  - intros section' key'. cbn. apply lookup_insert_ne, cache_key_origin.
  - unfold get_site. apply read_key_hit. cbn. apply lookup_insert_eq.
Qed.

(** ** Proofs: the composite cache key *)

Lemma append_sep_inj c (s s' k k' : string) :
  lacks c s = true -> lacks c s' = true ->
  s +:+ String c k = s' +:+ String c k' -> s = s' /\ k = k'.
Proof.
  unfold lacks. revert s'.
  induction s as [|x s IH]; intros [|y s']; cbn; intros Hs Hs' H.
  - now injection H as ->.
  - injection H as <- _. rewrite Ascii.eqb_refl in Hs'. discriminate.
  - injection H as -> _. rewrite Ascii.eqb_refl in Hs. discriminate.
  - apply andb_true_iff in Hs as [_ Hs]. apply andb_true_iff in Hs' as [_ Hs'].
    injection H as -> H. destruct (IH s' Hs Hs' H) as [-> ->]. now split.
Qed.

(** X11. Where section names hold no dot the composite cache key tells
    (origin, section, key) apart: two reads share a cache entry only when
    they are reads of the same key of the same section of the same store.
    The two origins never share an entry, dots or not. *)
Theorem cache_key_injective :
  forall site section key site' section' key',
    cache_key site section key = cache_key site' section' key' ->
    site = site'
    /\ (lacks "." section = true -> lacks "." section' = true ->
        section = section' /\ key = key').
Proof.
  intros site section key site' section' key' H.
  unfold cache_key, origin in H.
  destruct site, site'; cbn in H; try discriminate;
    (split; [reflexivity|]); intros Hs Hs';
    repeat (injection H as H); now apply (append_sep_inj "." _ _ _ _ Hs Hs').
Qed.

(** X12. The composite cache key is the joined text and nothing more, so
    a dot in a name makes two different places share one cache entry: what
    [set_key] caches for section "a.b" and key "c" is what a read of
    section "a" and key "b.c" returns, whatever the store holds there. *)
Theorem cache_key_joins_dotted_names :
  forall a b c value data_type to_site self w w',
    section_ready (store to_site self) (a +:+ "." +:+ b) ->
    let self' := after_set_key (a +:+ "." +:+ b) c value to_site self in
    set_key (a +:+ "." +:+ b) c value to_site (self, w)
    = (Returns tt, (self', w))
    /\ read_key a (b +:+ "." +:+ c) data_type to_site (self', w')
       = (Returns value,
          (self', add_out (read_key_log to_site a (b +:+ "." +:+ c)) w')).
Proof.
  intros a b c value data_type to_site self w w' Hr self'. split.
  - now apply set_key_ok.
  - apply read_key_hit.
    assert (Hk : cache_key to_site a (b +:+ "." +:+ c)
                 = cache_key to_site (a +:+ "." +:+ b) c).
    { unfold cache_key. now rewrite !append_assoc. }
    rewrite Hk. subst self'. cbn. apply lookup_insert_eq.
Qed.

(** ** Proofs: how the assignments of set_key compose *)

Lemma store_lookup_assign_ne st section key value section' key' :
  section' <> section \/ key' <> key ->
  store_lookup (store_assign st section key value) section' key'
  = store_lookup st section' key'.
Proof.
  intros Hne. destruct st as [| | | | | |d]; try reflexivity.
  unfold store_assign, store_lookup, section_dict.
  destruct (String.eqb section section') eqn:E.
  - apply String.eqb_eq in E. subst section'.
    destruct Hne as [Hne | Hne]; [congruence|].
    rewrite dict_get_set_eq.
    destruct (dict_get d section) as [[| | | | | |m]|];
      rewrite dict_get_set_ne by congruence; reflexivity.
  - apply String.eqb_neq in E. now rewrite dict_get_set_ne.
Qed.

Lemma store_after_set_key site section key value to_site self :
  store site (after_set_key section key value to_site self)
  = if Bool.eqb site to_site
    then store_assign (store site self) section key value
    else store site self.
Proof. destruct site, to_site; reflexivity. Qed.

(** X13. [set_key] changes one place only: whatever the stores hold and
    whether the assignment succeeds or not, every other key of the section,
    every other section and the whole other store read as before. *)
Theorem set_key_keeps_the_other_keys :
  forall section key value to_site self w site section' key',
    site <> to_site \/ section' <> section \/ key' <> key ->
    store_lookup
      (store site (fst (snd (set_key section key value to_site (self, w)))))
      section' key'
    = store_lookup (store site self) section' key'.
Proof.
  intros section key value to_site self w site section' key' Hne.
  destruct (section_ready_dec (store to_site self) section) as [H|H].
  - rewrite (set_key_ok _ _ _ _ _ w H). cbn [fst snd].
    rewrite store_after_set_key.
    destruct (Bool.eqb site to_site) eqn:E; [|reflexivity].
    apply Bool.eqb_prop in E. subst site.
    apply store_lookup_assign_ne. destruct Hne as [Hne|Hne]; congruence.
  - now rewrite (set_key_not_ready _ _ _ _ _ w H).
Qed.

Lemma store_assign_twice st section key v1 v2 :
  store_assign (store_assign st section key v1) section key v2
  = store_assign st section key v2.
Proof.
  destruct st as [| | | | | |d]; try reflexivity.
  unfold store_assign, section_dict.
  now rewrite dict_get_set_eq, !dict_set_set.
Qed.

Lemma section_ready_assign st section key value :
  section_ready st section ->
  section_ready (store_assign st section key value) section.
Proof.
  intros (d & -> & _). unfold store_assign. eexists. split; [reflexivity|].
  right. rewrite dict_get_set_eq. eauto.
Qed.

Lemma after_set_key_twice section key v1 v2 to_site self :
  after_set_key section key v2 to_site
    (after_set_key section key v1 to_site self)
  = after_set_key section key v2 to_site self.
Proof.
  destruct self as [p c s m]. unfold after_set_key, with_cache, with_config,
    with_configSite. destruct to_site; cbn;
    now rewrite store_assign_twice, insert_insert_eq.
Qed.

(** X14. The last write wins: two calls of [set_key] for the same place
    leave the class as the second call alone would, on every store; the key
    keeps the position the first assignment gave it. *)
Theorem set_key_last_write_wins :
  forall section key v1 v2 to_site self w,
    fst (snd (set_key section key v2 to_site
                (snd (set_key section key v1 to_site (self, w)))))
    = fst (snd (set_key section key v2 to_site (self, w))).
Proof.
  intros section key v1 v2 to_site self w.
  destruct (section_ready_dec (store to_site self) section) as [H|H].
  - rewrite (set_key_ok _ _ v1 _ _ w H), (set_key_ok _ _ v2 _ _ w H).
    cbn [fst snd]. rewrite set_key_ok.
    + cbn [fst snd]. apply after_set_key_twice.
    + rewrite store_after_set_key, Bool.eqb_reflx.
      now apply section_ready_assign.
  - rewrite (set_key_not_ready _ _ v1 _ _ w H), (set_key_not_ready _ _ v2 _ _ w H).
    cbn [fst snd]. now rewrite set_key_not_ready.
Qed.

Lemma well_formed_after_set_key site section key value to_site self :
  well_formed_store (store site self) ->
  well_formed_store (store site (after_set_key section key value to_site self)).
Proof.
  intros H. rewrite store_after_set_key.
  destruct (Bool.eqb site to_site); [now apply well_formed_assign | exact H].
Qed.

(** X15. The stores of the data model are kept: on a class whose two
    stores are mappings of sections to mappings (as [__init__] makes them,
    both empty), [set_key] always succeeds, prints nothing, and leaves two
    stores of that kind, with the value readable at its place. *)
Theorem set_key_keeps_the_stores_well_formed :
  forall section key value to_site self w,
    well_formed_store (config self) ->
    well_formed_store (configSite self) ->
    exists self',
      set_key section key value to_site (self, w) = (Returns tt, (self', w))
      /\ well_formed_store (config self')
      /\ well_formed_store (configSite self')
      /\ store_lookup (store to_site self') section key = Some value.
Proof.
  intros section key value to_site self w Hc Hs.
  assert (Hr : section_ready (store to_site self) section).
  { apply well_formed_section_ready. now destruct to_site. }
  exists (after_set_key section key value to_site self). repeat apply conj.
  - now apply set_key_ok.
  - now apply (well_formed_after_set_key false).
  - now apply (well_formed_after_set_key true).
  - rewrite store_after_set_key, Bool.eqb_reflx. now apply store_lookup_assign.
Qed.

(** ** Proofs: every outcome of read_config *)

Arguments reading_file : simpl never.
Arguments read_config_error : simpl never.

(** What [update_site_config] leaves: the site store is the one
    [site_after_fetch] tells, everything else of the class and every file
    is as before. *)
Lemma update_site_config_result self w :
  exists self' w',
    update_site_config (self, w) = (Returns tt, (self', w'))
    /\ config self' = config self
    /\ configSite self' = site_after_fetch w (configSite self)
    /\ cache self' = cache self /\ file_path self' = file_path self
    /\ files w' = files w.
Proof.
  rewrite update_site_config_cases. unfold site_after_fetch.
  destruct (requests_get w api_url) as [response|e].
  - destruct (status_code response =? 200)%Z.
    + destruct (json response) as [site|e]; eexists _, _; repeat split.
    + eexists _, _; repeat split.
  - eexists _, _; repeat split.
Qed.

(** The end of a load whose file was parsed: the main store is assigned,
    the site store fetched, and the call returns. *)
Lemma read_config_finish v self w0 :
  exists self' w',
    (update_site_config;;
     emit (console_print
             [txt "[bold cyan]🔧 Configuration file processing complete.[/bold cyan]"]))
      (with_config v self, w0)
    = (Returns tt, (self', w'))
    /\ config self' = v
    /\ configSite self' = site_after_fetch w0 (configSite self)
    /\ cache self' = cache self /\ file_path self' = file_path self
    /\ files w' = files w0.
Proof.
  destruct (update_site_config_result (with_config v self) w0)
    as (self' & w' & Hu & Hc & Hs & Hk & Hp & Hf).
  unfold mbind at 1, M_bind. rewrite Hu. run.
  eexists _, _. split; [reflexivity|]. repeat split; assumption.
Qed.

(** The file is there: it is parsed, and a text that is no JSON ends the
    load with the error logged. *)
Lemma read_config_present self w text :
  files w !! file_path self = Some text ->
  match json_loads float_of_str text with
  | Ok v =>
      exists self' w',
        read_config float_of_str (self, w) = (Returns tt, (self', w'))
        /\ config self' = v
        /\ configSite self' = site_after_fetch w (configSite self)
        /\ cache self' = cache self /\ file_path self' = file_path self
        /\ files w' = files w
  | Err e =>
      read_config float_of_str (self, w)
      = (Returns tt,
         (self, add_out (read_config_error e)
                  (add_out (reading_file (file_path self)) w)))
  end.
Proof.
  intros Hfile. unfold read_config, path_exists, load_file. run.
  rewrite Hfile. run. rewrite Hfile.
  destruct (json_loads float_of_str text) as [v|e]; run; [|reflexivity].
  match goal with
  | |- context [update_site_config (with_config v self, ?x)] =>
      destruct (read_config_finish v self x)
        as (self' & w' & Hu & Hc & Hs & Hk & Hp & Hf)
  end.
  unfold mbind, M_bind, emit in Hu. cbn in Hu.
  exists self', w'. split; [|repeat split; assumption].
  revert Hu. run. now intros ->.
Qed.

(** The file is missing and the download of the default cannot succeed:
    the process ends with status 0, nothing written, nothing changed. *)
Lemma read_config_download_fails self w :
  files w !! file_path self = None ->
  download_fails w (file_path self) ->
  exists w',
    read_config float_of_str (self, w) = (Exits 0, (self, w'))
    /\ files w' = files w.
Proof.
  intros Hfile Hfail. unfold read_config, path_exists. run. rewrite Hfile. run.
  match goal with
  | |- context [download_requirements ?u ?f (?s, ?x)] =>
      rewrite (download_requirements_cases u f s x)
  end.
  cbn [requests_get writable add_out]. unfold download_fails in Hfail.
  destruct (requests_get w default_config_url) as [response|e].
  - destruct (status_code response =? 200)%Z eqn:E.
    + apply Z.eqb_eq in E. destruct Hfail as [Hfail | Hfail]; [contradiction|].
      rewrite Hfail. eexists. split; reflexivity.
    + eexists. split; reflexivity.
  - eexists. split; reflexivity.
Qed.

(** The file is missing and the download succeeds: the body is written to
    the file, and the load goes on with the text just written. *)
Lemma read_config_downloaded self w response :
  files w !! file_path self = None ->
  requests_get w default_config_url = Ok response ->
  status_code response = 200%Z ->
  writable w (file_path self) = true ->
  match json_loads float_of_str (content response) with
  | Ok v =>
      exists self' w',
        read_config float_of_str (self, w) = (Returns tt, (self', w'))
        /\ config self' = v
        /\ configSite self' = site_after_fetch w (configSite self)
        /\ cache self' = cache self /\ file_path self' = file_path self
        /\ files w' = <[file_path self := content response]> (files w)
  | Err e =>
      exists w',
        read_config float_of_str (self, w) = (Returns tt, (self, w'))
        /\ files w' = <[file_path self := content response]> (files w)
        /\ requests_get w' = requests_get w /\ writable w' = writable w
        /\ base_path w' = base_path w
  end.
Proof.
  intros Hfile Hreq Hstatus Hw.
  unfold read_config, path_exists, load_file. run. rewrite Hfile. run.
  match goal with
  | |- context [download_requirements ?u ?f (?s, ?x)] =>
      rewrite (download_requirements_cases u f s x)
  end.
  cbn [requests_get writable add_out]. rewrite Hreq, Hstatus, Hw. run.
  rewrite lookup_insert_eq.
  destruct (json_loads float_of_str (content response)) as [v|e]; run.
  - match goal with
    | |- context [update_site_config (with_config v self, ?x)] =>
        destruct (read_config_finish v self x)
          as (self' & w' & Hu & Hc & Hs & Hk & Hp & Hf)
    end.
    unfold mbind, M_bind, emit in Hu. cbn in Hu.
    exists self', w'. split; [|repeat split; assumption].
    revert Hu. run. now intros ->.
  - eexists. split; [reflexivity|]. repeat split.
Qed.

Lemma download_fails_dec w path :
  download_fails w path \/ ~ download_fails w path.
Proof.
  unfold download_fails.
  destruct (requests_get w default_config_url) as [response|e]; [|now left].
  destruct (Z.eq_dec (status_code response) 200) as [E|E]; [|now left; left].
  destruct (writable w path); [right | now left; right].
  intros [H|H]; [contradiction | discriminate].
Qed.


Lemma read_config_cache self w :
  cache (fst (snd (read_config float_of_str (self, w)))) = cache self.
Proof.
  destruct (files w !! file_path self) as [text|] eqn:Hfile.
  - pose proof (read_config_present self w text Hfile) as H.
    destruct (json_loads float_of_str text) as [v|e].
    + now destruct H as (self' & w' & -> & _ & _ & Hk & _).
    + now rewrite H.
  - destruct (download_fails_dec w (file_path self)) as [Hfail|Hok].
    + now destruct (read_config_download_fails self w Hfile Hfail) as (w' & -> & _).
    + unfold download_fails in Hok.
      destruct (requests_get w default_config_url) as [response|e] eqn:Hreq;
        [|now destruct Hok].
      destruct (Z.eq_dec (status_code response) 200) as [E|E];
        [|destruct Hok; now left].
      destruct (writable w (file_path self)) eqn:Hw;
        [|destruct Hok; now right].
      pose proof (read_config_downloaded self w response Hfile Hreq E Hw) as H.
      destruct (json_loads float_of_str (content response)) as [v|e].
      * now destruct H as (self' & w' & -> & _ & _ & Hk & _).
      * now destruct H as (w' & -> & _).
Qed.

(** X17. A load does not empty the cache, so a reload can be invisible:
    a key that is in the cache when [read_config] is called is read after
    the load as it was read before, whatever the file and the site answer
    now hold for it. *)
Theorem read_config_keeps_cached_values :
  forall self w section key data_type from_site cached,
    cache self !! cache_key from_site section key = Some cached ->
    fst (read_key section key data_type from_site
           (snd (read_config float_of_str (self, w))))
    = Returns cached.
Proof.
  intros self w section key data_type from_site cached Hc.
  pose proof (read_config_cache self w) as Hk.
  destruct (read_config float_of_str (self, w)) as [o [self' w']].
  cbn [fst snd] in *. rewrite <- Hk in Hc.
  now rewrite (read_key_hit _ _ data_type _ _ w' _ Hc).
Qed.





(** ** Proofs: the class at work, from the first load to the getters *)


(** X23. What the site getters see.  After a fetch that answers with
    status 200 and a JSON body the site store is that body, and a
    [get_site] of a key the body holds, not yet in the cache, returns the
    value of the body and caches it. *)
Theorem update_site_config_then_get_site :
  forall self w response site section key raw,
    requests_get w api_url = Ok response ->
    status_code response = 200%Z ->
    json response = Ok site ->
    cache self !! cache_key true section key = None ->
    store_lookup site section key = Some raw ->
    exists self' w',
      update_site_config (self, w) = (Returns tt, (self', w'))
      /\ configSite self' = site
      /\ get_site section key (self', w')
         = (Returns raw,
            (with_cache (cache_key true section key) raw self',
             add_out (read_key_log true section key) w')).
Proof.
  intros self w response site section key raw Hreq Hstatus Hjson Hc Hl.
  rewrite update_site_config_cases, Hreq, Hstatus, Hjson. cbn.
  eexists _, _. split; [reflexivity|]. split; [reflexivity|].
  unfold get_site. now rewrite (read_key_miss section key ty_str true _ _ raw).
Qed.

(** X24. Before the first load the class holds nothing: on the instance
    [__init__] builds, every read, of whatever key, data type and origin,
    raises the error of the missing key. *)
Theorem fresh_manager_holds_no_key :
  forall file_name w section key data_type from_site,
    read_key section key data_type from_site (__init__ file_name w)
    = (Raises (key_not_found section key from_site),
       (fst (__init__ file_name w),
        add_out (read_key_log from_site section key)
          (snd (__init__ file_name w)))).
Proof.
  intros file_name w section key data_type from_site.
  unfold __init__, read_key. run. rewrite lookup_empty.
  destruct from_site; reflexivity.
Qed.

(** ** Proofs: writing, and what comes back from the disk *)

Arguments write_config_error : simpl never.


(** X26. A download that cannot save its file ends the process too: with
    status 200 but a destination that cannot be written, the [OSError] of
    the write is caught by the handler of the request errors, logged, and
    the process ends with status 0, no file written. *)
Theorem download_requirements_unwritable_exits :
  forall url filename self w response,
    requests_get w url = Ok response ->
    status_code response = 200%Z ->
    writable w filename = false ->
    download_requirements url filename (self, w)
    = (Exits 0,
       (self, add_out (download_error filename (Exn OSError None))
                (add_out (downloading url filename) w))).
Proof.
  intros url filename self w response Hreq Hstatus Hw.
  now rewrite download_requirements_cases, Hreq, Hstatus, Hw.
Qed.


(** *** The text written is plain ASCII *)

Lemma plain_app (a b : string) :
  reads_as_written a = true -> reads_as_written b = true ->
  reads_as_written (a +:+ b) = true.
Proof.
  unfold reads_as_written. intros Ha Hb. now rewrite str_all_app, Ha, Hb.
Qed.

Lemma plain_cons c (s : string) :
  plain_char c = true -> reads_as_written s = true ->
  reads_as_written (String c s) = true.
Proof. unfold reads_as_written. cbn [str_all]. now intros -> ->. Qed.

Lemma plain_escape_char c : reads_as_written (escape_char c) = true.
Proof. destruct c as [[] [] [] [] [] [] [] []]; reflexivity. Qed.

Lemma plain_escape s : reads_as_written (escape s) = true.
Proof.
  induction s as [|c s IH]; [reflexivity|]. cbn [escape].
  apply plain_app; [apply plain_escape_char | exact IH].
Qed.

Lemma plain_basestring s : reads_as_written (encode_basestring_ascii s) = true.
Proof.
  unfold encode_basestring_ascii. apply plain_cons; [reflexivity|].
  apply plain_app; [apply plain_escape | reflexivity].
Qed.

Lemma plain_digit c : is_digit c = true -> plain_char c = true.
Proof.
  destruct c as [[] [] [] [] [] [] [] []]; vm_compute; intros H;
    (reflexivity || discriminate H).
Qed.

Lemma plain_digits ds : str_all is_digit ds = true -> reads_as_written ds = true.
Proof.
  unfold reads_as_written. induction ds as [|c ds IH]; [reflexivity|].
  cbn [str_all]. intros H. apply andb_true_iff in H as [Hc Hds].
  now rewrite (plain_digit c Hc), IH.
Qed.

Lemma plain_intstr n : reads_as_written (intstr n) = true.
Proof.
  destruct (intstr_shape n) as (sgn & k & c & ds & -> & Hk & Hc & Hds & _).
  apply plain_app.
  - destruct Hk as [[-> _] | [-> _]]; reflexivity.
  - apply plain_cons; [now apply plain_digit | now apply plain_digits].
Qed.

Lemma plain_spaces n : reads_as_written (spaces n) = true.
Proof. induction n as [|n IH]; [reflexivity|]. now apply plain_cons. Qed.

Lemma plain_newline_indent level :
  reads_as_written (newline_indent level) = true.
Proof. apply plain_cons; [reflexivity | apply plain_spaces]. Qed.

Lemma plain_concat sep (l : list string) :
  reads_as_written sep = true ->
  Forall (fun s => reads_as_written s = true) l ->
  reads_as_written (String.concat sep l) = true.
Proof.
  intros Hsep. induction 1 as [|x l Hx Hl IH]; [reflexivity|].
  destruct l as [|y l]; [exact Hx|].
  change (String.concat sep (x :: y :: l))
    with (x +:+ sep +:+ String.concat sep (y :: l)).
  auto using plain_app.
Qed.

Lemma plain_iterencode v :
  (forall f, reads_as_written (float_repr f) = true) ->
  forall level, reads_as_written (enc v level) = true.
Proof.
  intros Hfloat.
  induction v as [|b|n|f|s|l IH|d IH] using pyvalue_forall_ind; intros level.
  - reflexivity.
  - now destruct b.
  - apply plain_intstr.
  - destruct f as [| [] | |]; try reflexivity; apply Hfloat.
  - apply plain_basestring.
  - destruct l as [|x l]; [reflexivity|]. cbn [iterencode].
    repeat first [ apply plain_app | apply plain_newline_indent
                 | apply plain_concat | reflexivity ].
    apply Forall_map. eapply Forall_impl; [exact IH|]. cbn. auto.
  - destruct d as [|x d]; [reflexivity|]. cbn [iterencode].
    repeat first [ apply plain_app | apply plain_newline_indent
                 | apply plain_concat | reflexivity ].
    apply Forall_map. eapply Forall_impl; [exact IH|].
    intros [k y] Hy. cbn [snd] in Hy. cbn beta iota.
    apply plain_app; [apply plain_basestring|].
    apply plain_app; [reflexivity | apply Hy].
Qed.


End Properties.

(** * The theorems at the example states *)

Lemma read_key_cached_value_wins_witness :
  cache (with_cache "config.General.debug" (VStr "false") demo_self)
    !! cache_key false "General" "debug" = Some (VStr "false")
  /\ read_key "General" "debug" ty_bool false
       (with_cache "config.General.debug" (VStr "false") demo_self, demo_world)
     = (Returns (VStr "false"),
        (with_cache "config.General.debug" (VStr "false") demo_self,
         add_out (read_key_log false "General" "debug") demo_world)).
Proof.
  split; [reflexivity|].
  exact (proj1 (read_key_cached_value_wins "General" "debug" ty_bool false
                  (with_cache "config.General.debug" (VStr "false") demo_self)
                  demo_world (VStr "false") eq_refl)).
Defined.

Lemma read_key_key_not_found_witness :
  cache demo_self !! cache_key false "General" "timeout" = None
  /\ key_absent (store false demo_self) "General" "timeout"
  /\ read_key "General" "timeout" ty_int false (demo_self, demo_world)
     = (Raises (key_not_found "General" "timeout" false),
        (demo_self, add_out (read_key_log false "General" "timeout") demo_world)).
Proof.
  assert (Habs : key_absent (store false demo_self) "General" "timeout").
  { eexists. split; [reflexivity|]. right. eexists. split; reflexivity. }
  split; [reflexivity|]. split; [exact Habs|].
  exact (read_key_key_not_found "General" "timeout" ty_int false
           demo_self demo_world eq_refl Habs).
Defined.

Lemma set_key_then_get_returns_value_witness :
  section_ready (config demo_self) "General"
  /\ set_key "General" "x" (VInt 5) false (demo_self, demo_world)
     = (Returns tt, (after_set_key "General" "x" (VInt 5) false demo_self,
                     demo_world))
  /\ get "General" "x"
       (after_set_key "General" "x" (VInt 5) false demo_self, demo_world)
     = (Returns (VInt 5),
        (after_set_key "General" "x" (VInt 5) false demo_self,
         add_out (read_key_log false "General" "x") demo_world)).
Proof.
  assert (Hr : section_ready (config demo_self) "General").
  { eexists. split; [reflexivity|]. right. eexists. reflexivity. }
  pose proof (set_key_then_get_returns_value "General" "x" (VInt 5)
                demo_self demo_world Hr) as H.
  split; [exact Hr|]. split; [apply H | apply H].
Defined.

Lemma read_key_bool_is_truthiness_witness :
  cache demo_self !! cache_key false "General" "debug" = None
  /\ store_lookup (store false demo_self) "General" "debug"
     = Some (VStr "false")
  /\ get_bool "General" "debug" (demo_self, demo_world)
     = (Returns (VBool true),
        (with_cache (cache_key false "General" "debug") (VBool true) demo_self,
         add_out (read_key_log false "General" "debug") demo_world)).
Proof.
  split; [reflexivity|]. split; [reflexivity|].
  exact (proj1 (read_key_bool_is_truthiness "General" "debug" false
                  demo_self demo_world (VStr "false") eq_refl eq_refl)).
Defined.

Lemma read_key_list_splits_on_commas_witness :
  cache demo_self !! cache_key false "General" "langs" = None
  /\ store_lookup (store false demo_self) "General" "langs"
     = Some (VStr "a, b,c")
  /\ get_list "General" "langs" (demo_self, demo_world)
     = (Returns (VList [VStr "a"; VStr "b"; VStr "c"]),
        (with_cache (cache_key false "General" "langs")
           (VList [VStr "a"; VStr "b"; VStr "c"]) demo_self,
         add_out (read_key_log false "General" "langs") demo_world)).
Proof.
  split; [reflexivity|]. split; [reflexivity|].
  exact (proj2 (proj2 (read_key_list_splits_on_commas "General" "langs" false
                         demo_self demo_world (VStr "a, b,c")
                         eq_refl eq_refl)) eq_refl).
Defined.


Lemma read_key_float_passes_raw_value_witness :
  cache demo_self !! cache_key false "General" "ratio" = None
  /\ store_lookup (store false demo_self) "General" "ratio"
     = Some (VFloat one_and_a_half)
  /\ passes_through ty_float
  /\ get_float "General" "ratio" (demo_self, demo_world)
     = (Returns (VFloat one_and_a_half),
        (with_cache (cache_key false "General" "ratio")
           (VFloat one_and_a_half) demo_self,
         add_out (read_key_log false "General" "ratio") demo_world)).
Proof.
  split; [reflexivity|]. split; [reflexivity|]. split; [exact I|].
  exact (proj1 (read_key_float_passes_raw_value "General" "ratio" ty_float
                  false demo_self demo_world (VFloat one_and_a_half)
                  eq_refl eq_refl I)).
Defined.

Lemma demo_config_exact :
  json_exact demo_float_repr demo_float_of_str demo_config.
Proof.
  unfold demo_config.
  repeat first
    [ apply exact_dict | apply exact_list | apply exact_float
    | apply exact_str | apply exact_int | apply exact_bool
    | apply exact_None | apply List.Forall_cons | apply List.Forall_nil
    | apply NoDup_ListNoDup; cbn; repeat constructor; cbn; intuition discriminate
    | cbn [snd] ].
  split; reflexivity.
Qed.


(** * Further theorems at the example states *)

Lemma read_key_returns_only_what_is_stored_witness :
  cache demo_self !! cache_key false "General" "retries" = None
  /\ (fst (get_int "General" "retries" (demo_self, demo_world))
      = Returns (VInt 42)
      <-> exists raw,
            store_lookup (store false demo_self) "General" "retries" = Some raw
            /\ _convert_to_data_type raw ty_int = Ok (VInt 42)).
Proof.
  split; [reflexivity|].
  exact (read_key_returns_only_what_is_stored "General" "retries" ty_int false
           demo_self demo_world (VInt 42) eq_refl).
Defined.

Lemma read_key_first_conversion_wins_witness :
  let self' := with_cache (cache_key false "General" "retries") (VInt 42)
                 demo_self in
  let w' := add_out (read_key_log false "General" "retries") demo_world in
  get_int "General" "retries" (demo_self, demo_world)
  = (Returns (VInt 42), (self', w'))
  /\ get "General" "retries" (self', w')
     = (Returns (VInt 42),
        (self', add_out (read_key_log false "General" "retries") w')).
Proof.
  split; [reflexivity|].
  exact (read_key_first_conversion_wins "General" "retries" ty_int false
           demo_self demo_world (VInt 42) _ _ eq_refl ty_str).
Defined.

Lemma read_key_section_no_mapping_witness :
  let self := with_config (VDict [("General", VStr "abc")]) demo_self in
  cache self !! cache_key false "General" "b" = None
  /\ get "General" "b" (self, demo_world)
     = (Raises (Exn TypeError None),
        (self, add_out (read_key_log false "General" "b") demo_world))
  /\ get "General" "x" (self, demo_world)
     = (Raises (key_not_found "General" "x" false),
        (self, add_out (read_key_log false "General" "x") demo_world)).
Proof.
  split; [reflexivity|]. split.
  - apply (read_key_section_no_mapping "General" "b" ty_str false
             (with_config (VDict [("General", VStr "abc")]) demo_self)
             demo_world [("General", VStr "abc")] (VStr "abc"));
      [reflexivity | reflexivity | reflexivity | discriminate].
  - apply (read_key_section_no_mapping "General" "x" ty_str false
             (with_config (VDict [("General", VStr "abc")]) demo_self)
             demo_world [("General", VStr "abc")] (VStr "abc"));
      [reflexivity | reflexivity | reflexivity | discriminate].
Defined.

Lemma read_key_NoneType_discards_the_value_witness :
  cache demo_self !! cache_key false "General" "debug" = None
  /\ store_lookup (store false demo_self) "General" "debug"
     = Some (VStr "false")
  /\ read_key "General" "debug" ty_NoneType false (demo_self, demo_world)
     = (Returns VNone,
        (with_cache (cache_key false "General" "debug") VNone demo_self,
         add_out (read_key_log false "General" "debug") demo_world)).
Proof.
  split; [reflexivity|]. split; [reflexivity|].
  exact (proj1 (read_key_NoneType_discards_the_value "General" "debug" false
                  demo_self demo_world (VStr "false") eq_refl eq_refl)).
Defined.

Lemma read_key_list_of_no_string_raises_witness :
  cache demo_self !! cache_key false "General" "ratio" = None
  /\ store_lookup (store false demo_self) "General" "ratio"
     = Some (VFloat one_and_a_half)
  /\ get_list "General" "ratio" (demo_self, demo_world)
     = (Raises (Exn AttributeError None),
        (demo_self, add_out (read_key_log false "General" "ratio") demo_world)).
Proof.
  split; [reflexivity|]. split; [reflexivity|].
  apply (read_key_list_of_no_string_raises "General" "ratio" false
           demo_self demo_world (VFloat one_and_a_half));
    [reflexivity | reflexivity | discriminate | discriminate].
Defined.

Lemma read_key_list_one_more_than_commas_witness :
  cache demo_self !! cache_key false "General" "langs" = None
  /\ store_lookup (store false demo_self) "General" "langs"
     = Some (VStr "a, b,c")
  /\ exists items,
      fst (get_list "General" "langs" (demo_self, demo_world))
      = Returns (VList (map VStr items))
      /\ length items = 3%nat.
Proof.
  split; [reflexivity|]. split; [reflexivity|].
  destruct (read_key_list_one_more_than_commas "General" "langs" false
              demo_self demo_world "a, b,c" eq_refl eq_refl)
    as (items & Hread & Hlen & _).
  exists items. split; [|exact Hlen].
  unfold get_list. now rewrite Hread.
Defined.

Lemma convert_to_data_type_twice_witness :
  _convert_to_data_type (VStr "a, b,c") ty_list
  = Ok (VList [VStr "a"; VStr "b"; VStr "c"])
  /\ _convert_to_data_type (VList [VStr "a"; VStr "b"; VStr "c"]) ty_list
     = Ok (VList [VStr "a"; VStr "b"; VStr "c"]).
Proof.
  split; [reflexivity|].
  exact (convert_to_data_type_twice (VStr "a, b,c") ty_list
           (VList [VStr "a"; VStr "b"; VStr "c"]) eq_refl).
Defined.

Lemma set_key_to_site_then_get_site_witness :
  section_ready (configSite demo_self) "site"
  /\ set_key "site" "domain" (VStr "example.org") true (demo_self, demo_world)
     = (Returns tt,
        (after_set_key "site" "domain" (VStr "example.org") true demo_self,
         demo_world))
  /\ get_site "site" "domain"
       (after_set_key "site" "domain" (VStr "example.org") true demo_self,
        demo_world)
     = (Returns (VStr "example.org"),
        (after_set_key "site" "domain" (VStr "example.org") true demo_self,
         add_out (read_key_log true "site" "domain") demo_world)).
Proof.
  assert (Hr : section_ready (configSite demo_self) "site").
  { exists []. split; [reflexivity | now left]. }
  pose proof (set_key_to_site_then_get_site "site" "domain"
                (VStr "example.org") demo_self demo_world Hr) as H.
  split; [exact Hr|]. split; apply H.
Defined.

Lemma cache_key_injective_witness :
  cache_key false "General" "debug" = cache_key false "General" "debug"
  /\ lacks "." "General" = true
  /\ ("General" = "General" /\ "debug" = "debug").
Proof.
  split; [reflexivity|]. split; [reflexivity|].
  exact (proj2 (cache_key_injective false "General" "debug"
                  false "General" "debug" eq_refl) eq_refl eq_refl).
Defined.

Lemma cache_key_joins_dotted_names_witness :
  section_ready (store false demo_self) ("General" +:+ "." +:+ "a")
  /\ store_lookup
       (config (after_set_key ("General" +:+ "." +:+ "a") "b" (VInt 1) false
                  demo_self))
       "General" ("a" +:+ "." +:+ "b") = None
  /\ fst (get "General" ("a" +:+ "." +:+ "b")
            (after_set_key ("General" +:+ "." +:+ "a") "b" (VInt 1) false
               demo_self, demo_world))
     = Returns (VInt 1).
Proof.
  assert (Hr : section_ready (store false demo_self)
                 ("General" +:+ "." +:+ "a")).
  { eexists. split; [reflexivity | now left]. }
  split; [exact Hr|]. split; [reflexivity|].
  unfold get.
  now rewrite (proj2 (cache_key_joins_dotted_names "General" "a" "b" (VInt 1)
                        ty_str false demo_self demo_world demo_world Hr)).
Defined.

Lemma set_key_keeps_the_other_keys_witness :
  store_lookup
    (store false
       (fst (snd (set_key "General" "x" (VInt 5) false
                    (demo_self, demo_world)))))
    "General" "debug"
  = Some (VStr "false").
Proof.
  rewrite (set_key_keeps_the_other_keys "General" "x" (VInt 5) false
             demo_self demo_world false "General" "debug");
    [reflexivity | right; right; discriminate].
Defined.

Lemma set_key_keeps_the_stores_well_formed_witness :
  well_formed_store (config (fst (__init__ "config.json" demo_world)))
  /\ well_formed_store (configSite (fst (__init__ "config.json" demo_world)))
  /\ exists self',
      set_key "General" "x" (VInt 5) false (__init__ "config.json" demo_world)
      = (Returns tt, (self', snd (__init__ "config.json" demo_world)))
      /\ well_formed_store (config self')
      /\ store_lookup (config self') "General" "x" = Some (VInt 5).
Proof.
  split; [apply well_formed_empty|]. split; [apply well_formed_empty|].
  destruct (set_key_keeps_the_stores_well_formed "General" "x" (VInt 5) false
              (fst (__init__ "config.json" demo_world))
              (snd (__init__ "config.json" demo_world))
              well_formed_empty well_formed_empty)
    as (self' & Hset & Hc & _ & Hl).
  exists self'. split; [exact Hset|]. split; [exact Hc | exact Hl].
Defined.

Lemma read_config_keeps_cached_values_witness :
  let self := with_cache (cache_key false "General" "debug") (VBool true)
                (with_config (VDict []) demo_self) in
  let w := with_file "/srv/app/config.json"
             (json_dumps demo_float_repr demo_config) demo_world in
  cache self !! cache_key false "General" "debug" = Some (VBool true)
  /\ store_lookup
       (config (fst (snd (read_config demo_float_of_str (self, w)))))
       "General" "debug" = Some (VStr "false")
  /\ fst (get "General" "debug"
            (snd (read_config demo_float_of_str (self, w))))
     = Returns (VBool true).
Proof.
  split; [reflexivity|]. split; [reflexivity|].
  exact (read_config_keeps_cached_values demo_float_of_str
           (with_cache (cache_key false "General" "debug") (VBool true)
              (with_config (VDict []) demo_self))
           (with_file "/srv/app/config.json"
              (json_dumps demo_float_repr demo_config) demo_world)
           "General" "debug" ty_str false (VBool true) eq_refl).
Defined.






Lemma update_site_config_then_get_site_witness :
  exists self' w',
    update_site_config (demo_self, demo_online "{}")
    = (Returns tt, (self', w'))
    /\ configSite self' = demo_site
    /\ fst (get_site "site" "domain" (self', w'))
       = Returns (VStr "example.org").
Proof.
  destruct (update_site_config_then_get_site demo_self (demo_online "{}")
              {| status_code := 200; content := "{}"; json := Ok demo_site |}
              demo_site "site" "domain" (VStr "example.org")
              eq_refl eq_refl eq_refl eq_refl eq_refl)
    as (self' & w' & Hu & Hs & Hget).
  exists self', w'. split; [exact Hu|]. split; [exact Hs | now rewrite Hget].
Defined.

Lemma download_requirements_unwritable_exits_witness :
  writable demo_read_only "/srv/app/config.json" = false
  /\ fst (download_requirements default_config_url "/srv/app/config.json"
            (demo_self, demo_read_only))
     = Exits 0.
Proof.
  split; [reflexivity|].
  now rewrite (download_requirements_unwritable_exits default_config_url
                 "/srv/app/config.json" demo_self demo_read_only
                 {| status_code := 200; content := "{}";
                    json := Ok demo_site |}
                 eq_refl eq_refl eq_refl).
Defined.



(** * The functions at work *)

Example split_then_strip :
  map strip (split "," " a ,b,, c ") = ["a"; "b"; ""; "c"].
Proof. reflexivity. Qed.

Example int_of_str_accepts :
  int_of_str "42" = Some 42 /\ int_of_str " -7 " = Some (-7)
  /\ int_of_str "+1_000" = Some 1000 /\ int_of_str "007" = Some 7.
Proof. repeat split; reflexivity. Qed.

Example int_of_str_refuses :
  int_of_str "" = None /\ int_of_str "12.5" = None
  /\ int_of_str "1__0" = None /\ int_of_str "7_" = None
  /\ int_of_str "- 7" = None /\ int_of_str "abc" = None.
Proof. repeat split; reflexivity. Qed.

(** [int] of a float cuts the fraction off, toward zero. *)
Example py_int_truncates :
  py_int (VFloat one_and_a_half) = Ok 1
  /\ py_int (VFloat (S754_finite true 3 (-1))) = Ok (-1)
  /\ py_int (VBool true) = Ok 1.
Proof. repeat split; reflexivity. Qed.

Example json_dumps_text :
  json_dumps demo_float_repr
    (VList [VInt 1; VFloat one_and_a_half; VList []; VDict []; VNone])
  = "[
    1,
    1.5,
    [],
    {},
    null
]".
Proof. reflexivity. Qed.

Example json_loads_accepts :
  json_loads demo_float_of_str " [1 , 1.5,[ ],{ } , null,true] "
  = Ok (VList [VInt 1; VFloat one_and_a_half; VList []; VDict []; VNone;
               VBool true]).
Proof. reflexivity. Qed.

Example json_loads_refuses :
  json_loads demo_float_of_str "[1,]" = interp_error JSONDecodeError
  /\ json_loads demo_float_of_str "01" = interp_error JSONDecodeError
  /\ json_loads demo_float_of_str "[1 2]" = interp_error JSONDecodeError
  /\ json_loads demo_float_of_str "" = interp_error JSONDecodeError.
Proof. repeat split; reflexivity. Qed.

(** The cache is keyed by the joined text alone: what [set_key] caches for
    section "General" and key "a.b" is what a read of section "General.a"
    and key "b" finds, although the store has no such section. *)
Example cache_key_is_flat :
  cache_key false "General" "a.b" = cache_key false "General.a" "b"
  /\ fst (get "General.a" "b"
            (after_set_key "General" "a.b" (VInt 1) false demo_self, demo_world))
     = Returns (VInt 1)
  /\ store_lookup (config (after_set_key "General" "a.b" (VInt 1) false demo_self))
       "General.a" "b" = None.
Proof. repeat split; reflexivity. Qed.

(** Outside the data model: when the section holds a string, the assignment
    of [set_key] raises, the class is left as it was and the error is
    printed; the read that follows finds no key. *)
Example set_key_on_a_section_that_is_no_mapping :
  let self := with_config (VDict [("General", VStr "abc")]) demo_self in
  set_key "General" "x" (VInt 5) false (self, demo_world)
  = (Returns tt,
     (self,
      add_out (builtin_print
                 [txt "Error setting key '"; txt "x"; txt "' in section '";
                  txt "General"; txt "' of "; txt "main"; txt " config: ";
                  exc (Exn TypeError None)]) demo_world))
  /\ fst (get "General" "x" (self, demo_world))
     = Raises (key_not_found "General" "x" false).
Proof. split; reflexivity. Qed.

(** The first load of the module when the file is missing and the network
    is down: the process ends with status 0. *)
Example config_manager_offline :
  fst (config_manager demo_float_of_str demo_world) = Exits 0.
Proof. reflexivity. Qed.
